(** * Receipt processor: points engine and receipt validation

    A shallow embedding of [main.go] (package [main] of
    hsf6/receipt-processor-challenge): the functions [countAlphanumeric],
    [calculatePoints] and [validateReceipt], the handlers
    [processReceipt], [handleRequests], [getPoints] and [getBreakdown]
    over the map of receipts, and the Go library routines they call.  The
    library is not part of the repository; its routines are modelled
    after their documented behaviour, each as far as the program uses it:
    [strconv.ParseFloat], [math.Ceil], [math.Mod], [strings.TrimSpace],
    the prefix and suffix functions of [strings], [time.Parse] on the two
    layouts used, [regexp.MatchString] on the three patterns used,
    [fmt.Sprintf] on the verbs used, [http.Error].

    Conventions.
    - A Go [string] is a sequence of bytes: Rocq's [string] (a list of 8-bit
      [ascii]).
    - A Go [int] is a 64-bit two's-complement integer: a [Z] kept in range by
      [GoInt.wrap] after every arithmetic operation.
    - A Go [float64] is an IEEE 754 binary64 value: [spec_float] with
      precision 53 and maximal exponent 1024, computed with the operations
      of [SpecFloat].
    - The conversion [int(x)] of a [float64] that no [int] represents is
      left to the implementation by the language; the engine takes that
      choice as a parameter, and every result below holds for all of them.
    - A Go [error] result is [option error], [None] standing for [nil].
    - Calls to [log] only write to the process log and are left out.
    - A handler is a function from the request and the map of receipts to
      the response, and for [processReceipt] the map it leaves.  The JSON
      decoder, [uuid.Parse] and the identifier [uuid.NewString] returns
      are parameters; requests are served one at a time.

    The file has three parts: the program and the library, the rules and
    checks read one by one, and the properties. *)

From Stdlib Require Import ZArith List Bool Lia.
From Stdlib Require Import Strings.Ascii Strings.String.
From Stdlib Require Import Numbers.DecimalString Numbers.DecimalZ.
From Stdlib Require Import Floats.SpecFloat.
Import ListNotations.

Local Open Scope string_scope.
Local Open Scope list_scope.
Local Open Scope Z_scope.

(** String concatenation, as Go's [+] on strings. *)
Infix "+++" := String.append (right associativity, at level 60).

(* ================================================================== *)
(** ** Go's [int]: 64-bit two's complement *)

Module GoInt.

Definition min_int : Z := - 2 ^ 63.
Definition max_int : Z := 2 ^ 63 - 1.

(** Reduction of a mathematical integer to the value the machine keeps. *)
Definition wrap (z : Z) : Z := (z + 2 ^ 63) mod 2 ^ 64 - 2 ^ 63.

Definition in_range (z : Z) : bool := (min_int <=? z) && (z <=? max_int).

Definition add (a b : Z) : Z := wrap (a + b).
Definition mul (a b : Z) : Z := wrap (a * b).

(** [len(x)] of a string or slice: its length, which an [int] always
    holds since the value fits the address space. *)
Definition len_string (s : string) : Z := Z.of_nat (String.length s).
Definition len_list {A : Type} (l : list A) : Z := Z.of_nat (List.length l).

End GoInt.

(* ================================================================== *)
(** ** Go's [float64] and the [math] routines used *)

Module Float64.

Definition prec : Z := 53.
Definition emax : Z := 1024.

Definition float64 : Type := spec_float.

Definition zero : float64 := S754_zero false.
Definition nan : float64 := S754_nan.

(** [x * y] and [x == y] on [float64]. *)
Definition mul (x y : float64) : float64 := SFmul prec emax x y.
Definition eqb (x y : float64) : bool := SFeqb x y.

(** [float64(n)] for an [int] [n]: the nearest binary64 value, ties to
    even. *)
Definition of_int (n : Z) : float64 := binary_normalize prec emax n 0 false.

(** The nearest binary64 value to the rational [num / den]
    ([0 <= num], [0 < den]) with the given sign, ties to even; the
    division core of [SpecFloat] applied to integer mantissas of any
    size.  A magnitude beyond the largest finite value gives an
    infinity. *)
Definition of_ratio (neg : bool) (num den : Z) : float64 :=
  if num =? 0 then S754_zero neg
  else
    let '(q, e, l) := SFdiv_core_binary prec emax num 0 den 0 in
    binary_round_aux prec emax neg q e l.

(** The untyped constants [0.2] and [0.25] converted to [float64]. *)
Definition const_0_2 : float64 := of_ratio false 2 10.
Definition const_0_25 : float64 := of_ratio false 25 100.

(** Integer part (towards zero) of a finite value. *)
Definition trunc (x : float64) : option Z :=
  match x with
  | S754_zero _ => Some 0
  | S754_finite s m e =>
      let a := if 0 <=? e then Z.shiftl (Zpos m) e
               else Z.shiftr (Zpos m) (- e) in
      Some (if s then - a else a)
  | S754_infinity _ | S754_nan => None
  end.

(** [math.Ceil]: the least integer value not below [x];
    [Ceil(+-0) = +-0], [Ceil(+-Inf) = +-Inf], [Ceil(NaN) = NaN]; a value
    in (-1, 0) gives -0. *)
Definition Ceil (x : float64) : float64 :=
  match x with
  | S754_finite s m e =>
      if 0 <=? e then x
      else
        let q := Z.shiftr (Zpos m) (- e) in
        let exact := Zpos m =? Z.shiftl q (- e) in
        if s then binary_normalize prec emax (- q) 0 true
        else binary_normalize prec emax (if exact then q else q + 1) 0 false
  | _ => x
  end.

(** [math.Mod]: the remainder of [x / y] with the sign of [x], always
    exact.  [Mod(+-Inf, y) = Mod(NaN, y) = Mod(x, 0) = Mod(x, NaN) = NaN],
    [Mod(x, +-Inf) = x]. *)
Definition Mod (x y : float64) : float64 :=
  match x, y with
  | S754_nan, _ | _, S754_nan => nan
  | S754_infinity _, _ => nan
  | _, S754_zero _ => nan
  | _, S754_infinity _ => x
  | S754_zero _, S754_finite _ _ _ => x
  | S754_finite sx mx ex, S754_finite _ my ey =>
      let e := Z.min ex ey in
      let r := (Z.shiftl (Zpos mx) (ex - e)) mod (Z.shiftl (Zpos my) (ey - e)) in
      binary_normalize prec emax (if sx then - r else r) e sx
  end.

(** [int(x)]: the integer part of [x] when it fits an [int].  Otherwise
    (a magnitude too large, an infinity, a NaN) the Go specification
    leaves the result to the implementation: [unrepresentable] stands
    for that choice; on amd64 it is always the least [int]. *)
Definition to_int (unrepresentable : float64 -> Z) (x : float64) : Z :=
  match trunc x with
  | Some n => if GoInt.in_range n then n else GoInt.wrap (unrepresentable x)
  | None => GoInt.wrap (unrepresentable x)
  end.

Definition amd64_unrepresentable (_ : float64) : Z := GoInt.min_int.

End Float64.

(* ================================================================== *)
(** ** Bytes *)

Module Chars.

(** The numeric value of a byte, for comparisons such as
    ['0' <= c && c <= '9']. *)
Definition code (c : ascii) : Z := Z.of_N (N_of_ascii c).

Definition between (lo c hi : ascii) : bool :=
  (code lo <=? code c) && (code c <=? code hi).

Definition is_digit (c : ascii) : bool := between "0" c "9".
Definition is_lower (c : ascii) : bool := between "a" c "z".
Definition is_upper (c : ascii) : bool := between "A" c "Z".

(** The value of a decimal digit, [c - '0']. *)
Definition digit_val (c : ascii) : Z := code c - code "0".

(** [lower(c)] of package [strconv]: [c | ('x' - 'X')]. *)
Definition lower (c : ascii) : ascii :=
  ascii_of_N (Z.to_N (Z.lor (code c) 32)).

Definition tab : ascii := "009".
Definition newline : ascii := "010".
Definition vtab : ascii := "011".
Definition formfeed : ascii := "012".
Definition creturn : ascii := "013".
Definition dquote : ascii := "034".

End Chars.

(* ================================================================== *)
(** ** Package [strconv]: [ParseFloat] *)

Module Strconv.
Import Chars Float64.

(** The two errors a [*NumError] of [ParseFloat] carries. *)
Inductive NumError : Type := ErrSyntax | ErrRange.

(** [commonPrefixLenIgnoreCase(s, prefix)], [prefix] in lower case. *)
Fixpoint commonPrefixLenIgnoreCase (s prefix : string) : Z :=
  match s, prefix with
  | String c s', String p prefix' =>
      let c := if is_upper c then ascii_of_N (Z.to_N (code c + 32)) else c in
      if Ascii.eqb c p then 1 + commonPrefixLenIgnoreCase s' prefix' else 0
  | _, _ => 0
  end.

Definition drop (n : Z) (s : string) : string :=
  String.substring (Z.to_nat n) (String.length s - Z.to_nat n) s.

(** [special]: the literals [inf], [infinity] (with an optional sign) and
    [nan], in any case; the value and what is left of the input. *)
Definition special (s : string) : option (float64 * string) :=
  let inf (neg : bool) (t : string) :=
    let n := commonPrefixLenIgnoreCase t "infinity" in
    let n := if (3 <? n) && (n <? 8) then 3 else n in
    if (n =? 3) || (n =? 8) then Some (S754_infinity neg, drop n t) else None in
  match s with
  | "" => None
  | String c s' =>
      if Ascii.eqb c "+" then inf false s'
      else if Ascii.eqb c "-" then inf true s'
      else if Ascii.eqb c "i" || Ascii.eqb c "I" then inf false s
      else if Ascii.eqb c "n" || Ascii.eqb c "N" then
        if commonPrefixLenIgnoreCase s "nan" =? 3 then Some (nan, drop 3 s)
        else None
      else None
  end.

(** State of the digit loop of [readFloat].  [mant] holds every
    significant digit read (Go keeps 19 of them and a truncation flag,
    and goes back to the full digit string when the flag matters), [nd]
    their number, [dp] the position of the point. *)
Record digits : Type := mkDigits {
  mant : Z;
  nd : Z;
  dp : Z;
  sawdot : bool;
  sawdigits : bool;
  underscores : bool
}.

Fixpoint read_digits (hex : bool) (st : digits) (s : string) : digits * string :=
  match s with
  | "" => (st, s)
  | String c s' =>
      if Ascii.eqb c "_" then
        read_digits hex (mkDigits (mant st) (nd st) (dp st) (sawdot st) (sawdigits st) true) s'
      else if Ascii.eqb c "." then
        if sawdot st then (st, s)
        else read_digits hex (mkDigits (mant st) (nd st) (nd st) true (sawdigits st) (underscores st)) s'
      else if is_digit c then
        if Ascii.eqb c "0" && (nd st =? 0) then
          read_digits hex (mkDigits (mant st) (nd st) (dp st - 1) (sawdot st) true (underscores st)) s'
        else
          read_digits hex
            (mkDigits (mant st * (if hex then 16 else 10) + digit_val c) (nd st + 1) (dp st)
                      (sawdot st) true (underscores st)) s'
      else if hex && between "a" (lower c) "f" then
        read_digits hex
          (mkDigits (mant st * 16 + (code (lower c) - code "a" + 10)) (nd st + 1) (dp st)
                    (sawdot st) true (underscores st)) s'
      else (st, s)
  end.

(** The digits of an exponent; past 10000 further digits are ignored. *)
Fixpoint read_exp_digits (e : Z) (us : bool) (s : string) : Z * bool * string :=
  match s with
  | "" => (e, us, s)
  | String c s' =>
      if Ascii.eqb c "_" then read_exp_digits e true s'
      else if is_digit c then
        read_exp_digits (if e <? 10000 then e * 10 + digit_val c else e) us s'
      else (e, us, s)
  end.

(** [underscoreOK]: an underscore only between two digits, or between a
    base prefix and a digit.  [saw] is the last byte class seen. *)
Inductive saw : Type := SawStart | SawDigit | SawUnderscore | SawOther.

Fixpoint underscore_loop (hex : bool) (last : saw) (s : string) : bool :=
  match s with
  | "" => match last with SawUnderscore => false | _ => true end
  | String c s' =>
      if is_digit c || (hex && between "a" (lower c) "f") then
        underscore_loop hex SawDigit s'
      else if Ascii.eqb c "_" then
        match last with
        | SawDigit => underscore_loop hex SawUnderscore s'
        | _ => false
        end
      else
        match last with
        | SawUnderscore => false
        | _ => underscore_loop hex SawOther s'
        end
  end.

Definition underscoreOK (s : string) : bool :=
  let s := match s with
           | String c s' => if Ascii.eqb c "-" || Ascii.eqb c "+" then s' else s
           | "" => s
           end in
  match s with
  | String c0 (String c1 s') =>
      if Ascii.eqb c0 "0" &&
         (Ascii.eqb (lower c1) "b" || Ascii.eqb (lower c1) "o" || Ascii.eqb (lower c1) "x")
      then underscore_loop (Ascii.eqb (lower c1) "x") SawDigit s'
      else underscore_loop false SawStart s
  | _ => underscore_loop false SawStart s
  end.

(** [readFloat]: sign, mantissa, exponent and base of a decimal or
    hexadecimal literal, and what is left of the input; [None] where
    [readFloat] reports [ok = false]. *)
Definition readFloat (s : string) : option (bool * Z * Z * bool * string) :=
  match s with
  | "" => None
  | String c0 s0 =>
      let '(neg, s1) :=
        if Ascii.eqb c0 "+" then (false, s0)
        else if Ascii.eqb c0 "-" then (true, s0)
        else (false, s) in
      let '(hex, s2) :=
        match s1 with
        | String z (String x (String c r)) =>
            if Ascii.eqb z "0" && Ascii.eqb (lower x) "x" then (true, String c r)
            else (false, s1)
        | _ => (false, s1)
        end in
      let '(st, s3) := read_digits hex (mkDigits 0 0 0 false false false) s2 in
      if negb (sawdigits st) then None
      else
        let dp0 := if sawdot st then dp st else nd st in
        let '(dp1, nd1) := if hex then (dp0 * 4, nd st * 4) else (dp0, nd st) in
        let finish (dp2 : Z) (us : bool) (rest : string) :=
          let exp := if mant st =? 0 then 0 else dp2 - nd1 in
          let consumed :=
            String.substring 0 (String.length s - String.length rest) s in
          if us && negb (underscoreOK consumed) then None
          else Some (neg, mant st, exp, hex, rest) in
        match s3 with
        | String c s4 =>
            if Ascii.eqb (lower c) (if hex then "p" else "e") then
              match s4 with
              | "" => None
              | String d s5 =>
                  let '(esign, s6) :=
                    if Ascii.eqb d "+" then (1, s5)
                    else if Ascii.eqb d "-" then (-1, s5)
                    else (1, s4) in
                  match s6 with
                  | "" => None
                  | String d0 _ =>
                      if negb (is_digit d0) then None
                      else
                        let '(e, us, rest) := read_exp_digits 0 (underscores st) s6 in
                        finish (dp1 + e * esign) us rest
                  end
              end
            else if hex then None
            else finish dp1 (underscores st) s3
        | "" => if hex then None else finish dp1 (underscores st) s3
        end
  end.

(** The binary64 value nearest to [mant * base^exp] (ties to even), with
    [base] 10, or 2 for a hexadecimal literal. *)
Definition float_of_literal (neg : bool) (mant exp : Z) (hex : bool) : float64 :=
  let base := if hex then 2 else 10 in
  if 0 <=? exp then of_ratio neg (mant * base ^ exp) 1
  else of_ratio neg mant (base ^ (- exp)).

(** [strconv.ParseFloat(s, 64)].  A string that is not wholly a literal
    gives [0] and [ErrSyntax]; a literal beyond the largest finite value
    gives an infinity and [ErrRange]. *)
Definition ParseFloat (s : string) : float64 * option NumError :=
  match special s with
  | Some (f, rest) =>
      if String.eqb rest "" then (f, None) else (zero, Some ErrSyntax)
  | None =>
      match readFloat s with
      | None => (zero, Some ErrSyntax)
      | Some (neg, m, e, hex, rest) =>
          if negb (String.eqb rest "") then (zero, Some ErrSyntax)
          else
            let f := float_of_literal neg m e hex in
            match f with
            | S754_infinity _ => (f, Some ErrRange)
            | _ => (f, None)
            end
      end
  end.

End Strconv.

(* ================================================================== *)
(** ** Package [fmt]: the verbs [%d], [%s] and [%.2f] *)

Module Fmt.
Import Float64.

(** [%d] of an [int]: decimal digits, a minus sign before a negative
    value. *)
Definition itoa (n : Z) : string := NilZero.string_of_int (Z.to_int n).

(** The integer nearest to [num / den] ([0 < den]), ties to even. *)
Definition round_half_even (num den : Z) : Z :=
  let q := num / den in
  match 2 * (num mod den) ?= den with
  | Lt => q
  | Gt => q + 1
  | Eq => if Z.even q then q else q + 1
  end.

Definition two_digits (n : Z) : string :=
  if n <? 10 then "0" +++ itoa n else itoa n.

(** [%.2f] of a [float64]: the exact value rounded to two decimals, ties
    to even; [NaN], [+Inf] and [-Inf] for the special values. *)
Definition fixed2 (x : float64) : string :=
  match x with
  | S754_nan => "NaN"
  | S754_infinity false => "+Inf"
  | S754_infinity true => "-Inf"
  | S754_zero s => (if s then "-" else "") +++ "0.00"
  | S754_finite s m e =>
      let n := if 0 <=? e then Zpos m * 2 ^ e * 100
               else round_half_even (Zpos m * 100) (2 ^ (- e)) in
      (if s then "-" else "") +++ itoa (n / 100) +++ "." +++ two_digits (n mod 100)
  end.

End Fmt.

(* ================================================================== *)
(** ** Package [strings]: [TrimSpace] *)

Module Strings.
Import Chars.

(** The UTF-8 encodings of the runes of [unicode.IsSpace]: the six ASCII
    ones, U+0085, U+00A0, U+1680, U+2000 to U+200A, U+2028, U+2029,
    U+202F, U+205F and U+3000. *)
Definition space_encodings : list (list ascii) :=
  ([ [tab]; [newline]; [vtab]; [formfeed]; [creturn]; [" "];
     ["194"; "133"]; ["194"; "160"]; ["225"; "154"; "128"] ]
   ++ map (fun b => ["226"; "128"; ascii_of_N (128 + N.of_nat b)]) (seq 0 11)
   ++ [ ["226"; "128"; "168"]; ["226"; "128"; "169"]; ["226"; "128"; "175"];
        ["226"; "129"; "159"]; ["227"; "128"; "128"] ])%char.

Fixpoint strip_prefix (p l : list ascii) : option (list ascii) :=
  match p, l with
  | [], _ => Some l
  | a :: p', b :: l' => if Ascii.eqb a b then strip_prefix p' l' else None
  | _ :: _, [] => None
  end.

(** One leading white-space rune removed, if there is one. *)
Fixpoint strip_space (encs : list (list ascii)) (l : list ascii) : option (list ascii) :=
  match encs with
  | [] => None
  | p :: encs' =>
      match strip_prefix p l with
      | Some l' => Some l'
      | None => strip_space encs' l
      end
  end.

(** Leading white-space runes removed; the fuel is the number of bytes,
    each step removing at least one. *)
Fixpoint trim_left (fuel : nat) (encs : list (list ascii)) (l : list ascii) : list ascii :=
  match fuel with
  | O => l
  | S fuel' =>
      match strip_space encs l with
      | Some l' => trim_left fuel' encs l'
      | None => l
      end
  end.

(** [strings.TrimSpace]: white space removed at both ends.  At the right
    end the bytes are read backwards, against the reversed encodings. *)
Definition TrimSpace (s : string) : string :=
  let l := list_ascii_of_string s in
  let l1 := trim_left (List.length l) space_encodings l in
  let r := trim_left (List.length l1) (map (@rev ascii) space_encodings) (rev l1) in
  string_of_list_ascii (rev r).

End Strings.

(* ================================================================== *)
(** ** Package [time]: [Parse] on the layouts ["2006-01-02"] and ["15:04"] *)

Module Time.
Import Chars.

Record Time : Type := mkTime {
  Year : Z;
  Month : Z;
  Day : Z;
  Hour : Z;
  Minute : Z
}.

(** [Time{}], returned with every parse error: January 1 of year 1,
    00:00. *)
Definition zeroTime : Time := mkTime 1 1 1 0 0.

Inductive ParseError : Type := errParse.

(** [getnum(s, fixed)]: one or two leading digits; with [fixed], exactly
    two. *)
Definition getnum (s : string) (fixed : bool) : option (Z * string) :=
  match s with
  | String a s' =>
      if is_digit a then
        match s' with
        | String b s'' =>
            if is_digit b then Some (digit_val a * 10 + digit_val b, s'')
            else if fixed then None else Some (digit_val a, s')
        | "" => if fixed then None else Some (digit_val a, s')
        end
      else None
  | "" => None
  end.

(** The four bytes of a [2006] year: all digits. *)
Definition getyear (s : string) : option (Z * string) :=
  match s with
  | String a (String b (String c (String d s'))) =>
      if is_digit a && is_digit b && is_digit c && is_digit d then
        Some (((digit_val a * 10 + digit_val b) * 10 + digit_val c) * 10 + digit_val d, s')
      else None
  | _ => None
  end.

(** [skip(value, prefix)] for a one-byte literal [prefix] other than a
    space. *)
Definition skip (value : string) (prefix : ascii) : option string :=
  match value with
  | String c value' => if Ascii.eqb c prefix then Some value' else None
  | "" => None
  end.

Definition isLeap (year : Z) : bool :=
  (year mod 4 =? 0) && (negb (year mod 100 =? 0) || (year mod 400 =? 0)).

Definition daysIn (month year : Z) : Z :=
  if (month =? 2) && isLeap year then 29
  else nth (Z.to_nat (month - 1)) [31; 28; 31; 30; 31; 30; 31; 31; 30; 31; 30; 31] 0.

(** [time.Parse("2006-01-02", value)]. *)
Definition Parse_date (value : string) : Time * option ParseError :=
  let bad := (zeroTime, Some errParse) in
  match getyear value with
  | None => bad
  | Some (year, v1) =>
  match skip v1 "-" with
  | None => bad
  | Some v2 =>
  match getnum v2 true with
  | None => bad
  | Some (month, v3) =>
  if (month <=? 0) || (12 <? month) then bad else
  match skip v3 "-" with
  | None => bad
  | Some v4 =>
  match getnum v4 true with
  | None => bad
  | Some (day, v5) =>
  if negb (String.eqb v5 "") then bad
  else if (day <? 1) || (daysIn month year <? day) then bad
  else (mkTime year month day 0 0, None)
  end end end end end.

(** [time.Parse("15:04", value)]: the hour takes one or two digits, the
    minute exactly two; the date fields keep their defaults. *)
Definition Parse_clock (value : string) : Time * option ParseError :=
  let bad := (zeroTime, Some errParse) in
  match getnum value false with
  | None => bad
  | Some (hour, v1) =>
  if (hour <? 0) || (24 <=? hour) then bad else
  match skip v1 ":" with
  | None => bad
  | Some v2 =>
  match getnum v2 true with
  | None => bad
  | Some (min, v3) =>
  if (min <? 0) || (60 <=? min) then bad
  else if negb (String.eqb v3 "") then bad
  else (mkTime 0 1 1 hour min, None)
  end end end.

End Time.

(* ================================================================== *)
(** ** Package [regexp]: the patterns of [validateReceipt] *)

Module Regexp.
Import Chars.

(** Regular expressions over bytes.  Go matches over runes; the classes
    used here hold ASCII bytes only, and a byte of a rune outside ASCII
    (or of an ill-formed sequence) is at least 128, so it belongs to no
    class, as the rune it is part of belongs to none. *)
Inductive regex : Type :=
| Void : regex
| Eps : regex
| Class (p : ascii -> bool) : regex
| Cat (r1 r2 : regex) : regex
| Alt (r1 r2 : regex) : regex
| Star (r : regex) : regex.

(** [r+] and [r{2}]. *)
Definition Plus (r : regex) : regex := Cat r (Star r).
Definition Twice (r : regex) : regex := Cat r r.

Fixpoint nullable (r : regex) : bool :=
  match r with
  | Void => false
  | Eps => true
  | Class _ => false
  | Cat r1 r2 => nullable r1 && nullable r2
  | Alt r1 r2 => nullable r1 || nullable r2
  | Star _ => true
  end.

(** The derivative of [r] by the byte [c]. *)
Fixpoint deriv (r : regex) (c : ascii) : regex :=
  match r with
  | Void => Void
  | Eps => Void
  | Class p => if p c then Eps else Void
  | Cat r1 r2 =>
      if nullable r1 then Alt (Cat (deriv r1 c) r2) (deriv r2 c)
      else Cat (deriv r1 c) r2
  | Alt r1 r2 => Alt (deriv r1 c) (deriv r2 c)
  | Star r1 => Cat (deriv r1 c) (Star r1)
  end.

(** [MatchString] of a pattern [^r$]: the whole string is in [r].
    Without the [m] flag, [^] and [$] match at the two ends of the text
    only. *)
Fixpoint MatchString (r : regex) (s : string) : bool :=
  match s with
  | "" => nullable r
  | String c s' => MatchString (deriv r c) s'
  end.

(** The Perl classes: [\d] is [[0-9]], [\w] is [[0-9A-Za-z_]], [\s] is
    [[\t\n\f\r ]]. *)
Definition perl_d (c : ascii) : bool := is_digit c.
Definition perl_w (c : ascii) : bool :=
  is_digit c || is_upper c || is_lower c || Ascii.eqb c "_".
Definition perl_s (c : ascii) : bool :=
  Ascii.eqb c tab || Ascii.eqb c newline || Ascii.eqb c formfeed
  || Ascii.eqb c creturn || Ascii.eqb c " ".
Definition lit (a : ascii) (c : ascii) : bool := Ascii.eqb c a.
Definition union (p q : ascii -> bool) (c : ascii) : bool := p c || q c.

(** [[\w\s\-\&]], [[\w\s\-]]. *)
Definition retailer_class : ascii -> bool :=
  union perl_w (union perl_s (union (lit "-") (lit "&"))).
Definition description_class : ascii -> bool :=
  union perl_w (union perl_s (lit "-")).

(** [^[\w\s\-\&]+$], [^[\w\s\-]+$] and [^\d+\.\d{2}$]. *)
Definition retailer_re : regex := Plus (Class retailer_class).
Definition description_re : regex := Plus (Class description_class).
Definition decimal_re : regex :=
  Cat (Plus (Class perl_d)) (Cat (Class (lit ".")) (Twice (Class perl_d))).

End Regexp.

(* ================================================================== *)
(** ** Package [main] *)

Import Chars Float64 Strconv Fmt Strings Time Regexp.

Record Item : Type := mkItem {
  ShortDescription : string;
  Price : string
}.

Record Receipt : Type := mkReceipt {
  ID : string;
  Retailer : string;
  PurchaseDate : string;
  PurchaseTime : string;
  Items : list Item;
  Total : string;
  Points : Z;
  Breakdown : list string
}.

(** The value of [errors.New(msg)]. *)
Inductive error : Type := errors_New (msg : string).

(** [countAlphanumeric].  The loop ranges over runes; a rune outside ASCII
    is never counted, and none of its bytes passes the test below. *)
Fixpoint countAlphanumeric_from (count : Z) (s : string) : Z :=
  match s with
  | "" => count
  | String char s' =>
      if between "a" char "z" || between "A" char "Z" || between "0" char "9"
      then countAlphanumeric_from (GoInt.add count 1) s'
      else countAlphanumeric_from count s'
  end.

Definition countAlphanumeric (s : string) : Z := countAlphanumeric_from 0 s.

Section Engine.

(** What [int(x)] gives for an [x] that no [int] represents. *)
Variable unrepresentable : float64 -> Z.

Definition quote : string := String dquote "".

(** The body of the rule 5 loop, on the pair [(points, breakdown)]. *)
Definition scoreItem (acc : Z * list string) (item : Item) : Z * list string :=
  let '(points, breakdown) := acc in
  let price := fst (ParseFloat (Price item)) in
  let descLength := GoInt.len_string (TrimSpace (ShortDescription item)) in
  if Z.rem descLength 3 =? 0 then
    let totalPrice := Float64.mul price const_0_2 in
    let itemPoints := to_int unrepresentable (Ceil totalPrice) in
    (GoInt.add points itemPoints,
     breakdown ++
       [itoa itemPoints +++ " points - " +++ quote
        +++ TrimSpace (ShortDescription item) +++ quote +++ " is "
        +++ itoa descLength +++ " characters (a multiple of 3), item price "
        +++ fixed2 price +++ " * 0.2 = " +++ fixed2 totalPrice
        +++ " which is rounded to: " +++ itoa itemPoints +++ " points"])
  else (points, breakdown).

Definition calculatePoints (receipt : Receipt) : Z * list string :=
  let points := 0 in
  let breakdown := [] in
  (* Rule 1: alphanumeric characters in retailer name *)
  let retailerPoints := countAlphanumeric (Retailer receipt) in
  let points := GoInt.add points retailerPoints in
  let breakdown := breakdown ++
    [itoa retailerPoints +++ " points - retailer name (" +++ Retailer receipt
     +++ ") has " +++ itoa retailerPoints +++ " alphanumeric characters"] in
  (* Rule 2: total is a round dollar amount *)
  let total := fst (ParseFloat (Total receipt)) in
  let '(points, breakdown) :=
    if Float64.eqb total (of_int (to_int unrepresentable total)) then
      (GoInt.add points 50,
       breakdown ++ ["50 points - total is a round dollar amount with no cents"])
    else (points, breakdown) in
  (* Rule 3: total is a multiple of 0.25 *)
  let '(points, breakdown) :=
    if Float64.eqb (Mod total const_0_25) zero then
      (GoInt.add points 25, breakdown ++ ["25 points - total is a multiple of 0.25"])
    else (points, breakdown) in
  (* Rule 4: 5 points for every two items *)
  let itemPoints := GoInt.mul (Z.quot (GoInt.len_list (Items receipt)) 2) 5 in
  let points := GoInt.add points itemPoints in
  let breakdown := breakdown ++
    [itoa itemPoints +++ " points - " +++ itoa (GoInt.len_list (Items receipt))
     +++ " items (" +++ itoa (Z.quot (GoInt.len_list (Items receipt)) 2)
     +++ " pairs @ 5 points each)"] in
  (* Rule 5: description length and price points *)
  let '(points, breakdown) := fold_left scoreItem (Items receipt) (points, breakdown) in
  (* Rule 6: day of purchase is odd *)
  let date := fst (Parse_date (PurchaseDate receipt)) in
  let '(points, breakdown) :=
    if negb (Z.rem (Day date) 2 =? 0) then
      (GoInt.add points 6, breakdown ++ ["6 points - purchase day is odd"])
    else (points, breakdown) in
  (* Rule 7: purchase time between 2:00pm and 4:00pm *)
  let time := fst (Parse_clock (PurchaseTime receipt)) in
  let '(points, breakdown) :=
    if (Hour time =? 14) || (Hour time =? 15) then
      (GoInt.add points 10,
       breakdown ++ ["10 points - purchase time is between 2:00pm and 4:00pm"])
    else (points, breakdown) in
  (points, breakdown).

End Engine.

(** The loop of [validateReceipt] over the items. *)
Fixpoint validateItems (items : list Item) : option error :=
  match items with
  | [] => None
  | item :: rest =>
      if String.eqb (ShortDescription item) "" then
        Some (errors_New "item shortDescription is invalid")
      else if negb (MatchString description_re (ShortDescription item)) then
        Some (errors_New "item shortDescription is invalid")
      else if negb (MatchString decimal_re (Price item)) then
        Some (errors_New "item price must be a valid decimal number")
      else validateItems rest
  end.

Definition validateReceipt (receipt : Receipt) : option error :=
  if String.eqb (Retailer receipt) "" then
    Some (errors_New "retailer name is invalid")
  else if negb (MatchString retailer_re (Retailer receipt)) then
    Some (errors_New "retailer name is invalid")
  else
    match snd (Parse_date (PurchaseDate receipt)) with
    | Some _ => Some (errors_New "purchaseDate must be in YYYY-MM-DD format")
    | None =>
    match snd (Parse_clock (PurchaseTime receipt)) with
    | Some _ => Some (errors_New "purchaseTime must be in HH:mm 24-hour format")
    | None =>
    if GoInt.len_list (Items receipt) <? 1 then
      Some (errors_New "items array must have at least one item")
    else
      match validateItems (Items receipt) with
      | Some e => Some e
      | None =>
          if negb (MatchString decimal_re (Total receipt)) then
            Some (errors_New "total must be a valid decimal number")
          else None
      end
    end end.

(* ================================================================== *)
(** ** The rules, one by one

    The contribution and the breakdown line of each rule, as functions of
    the receipt; [calculatePoints_closed] below shows that the code
    computes their sum and their concatenation. *)

Definition when {A : Type} (b : bool) (x : A) : list A := if b then [x] else [].
Definition worth (b : bool) (n : Z) : Z := if b then n else 0.

Definition sumZ (l : list Z) : Z := fold_right Z.add 0 l.

Definition rule1_points (r : Receipt) : Z := countAlphanumeric (Retailer r).
Definition rule1_line (r : Receipt) : string :=
  itoa (rule1_points r) +++ " points - retailer name (" +++ Retailer r
  +++ ") has " +++ itoa (rule1_points r) +++ " alphanumeric characters".

Definition rule2_line : string :=
  "50 points - total is a round dollar amount with no cents".
Definition rule3_line : string := "25 points - total is a multiple of 0.25".

Definition rule4_pairs (r : Receipt) : Z := Z.quot (GoInt.len_list (Items r)) 2.
Definition rule4_points (r : Receipt) : Z := GoInt.mul (rule4_pairs r) 5.
Definition rule4_line (r : Receipt) : string :=
  itoa (rule4_points r) +++ " points - " +++ itoa (GoInt.len_list (Items r))
  +++ " items (" +++ itoa (rule4_pairs r) +++ " pairs @ 5 points each)".

Definition rule6_line : string := "6 points - purchase day is odd".
Definition rule7_line : string :=
  "10 points - purchase time is between 2:00pm and 4:00pm".

(** The parsed total, and the tests of rules 3, 6 and 7. *)
Definition total_value (r : Receipt) : float64 := fst (ParseFloat (Total r)).
Definition quarter_multiple (total : float64) : bool :=
  Float64.eqb (Mod total const_0_25) zero.
Definition odd_day (r : Receipt) : bool :=
  negb (Z.rem (Day (fst (Parse_date (PurchaseDate r)))) 2 =? 0).
Definition afternoon (r : Receipt) : bool :=
  let h := Hour (fst (Parse_clock (PurchaseTime r))) in (h =? 14) || (h =? 15).

(** Rule 5, for one item: the length of the trimmed description, the
    test the code applies to it, the points and the line. *)
Definition trimmed_length (it : Item) : Z :=
  GoInt.len_string (TrimSpace (ShortDescription it)).
Definition item_qualifies (it : Item) : bool := Z.rem (trimmed_length it) 3 =? 0.

Section Rules.

Variable unrepresentable : float64 -> Z.

Definition round_dollar (total : float64) : bool :=
  Float64.eqb total (of_int (to_int unrepresentable total)).

(** [int(math.Ceil(price * 0.2))] for a price string. *)
Definition price_points (price : string) : Z :=
  to_int unrepresentable (Ceil (Float64.mul (fst (ParseFloat price)) const_0_2)).

Definition item_line (it : Item) : string :=
  itoa (price_points (Price it)) +++ " points - " +++ quote
  +++ TrimSpace (ShortDescription it) +++ quote +++ " is "
  +++ itoa (trimmed_length it) +++ " characters (a multiple of 3), item price "
  +++ fixed2 (fst (ParseFloat (Price it))) +++ " * 0.2 = "
  +++ fixed2 (Float64.mul (fst (ParseFloat (Price it))) const_0_2)
  +++ " which is rounded to: " +++ itoa (price_points (Price it)) +++ " points".

Definition item_points (it : Item) : Z :=
  worth (item_qualifies it) (price_points (Price it)).
Definition item_lines (it : Item) : list string :=
  when (item_qualifies it) (item_line it).

(** The points of the two rules on the total, and their lines. *)
Definition total_points (total : float64) : Z :=
  worth (round_dollar total) 50 + worth (quarter_multiple total) 25.
Definition total_lines (total : float64) : list string :=
  when (round_dollar total) rule2_line ++ when (quarter_multiple total) rule3_line.

(** The sum of all contributions, before reduction to an [int]. *)
Definition raw_points (r : Receipt) : Z :=
  rule1_points r + total_points (total_value r) + rule4_points r
  + sumZ (map item_points (Items r))
  + worth (odd_day r) 6 + worth (afternoon r) 10.

Definition all_lines (r : Receipt) : list string :=
  [rule1_line r] ++ total_lines (total_value r) ++ [rule4_line r]
  ++ flat_map item_lines (Items r)
  ++ when (odd_day r) rule6_line ++ when (afternoon r) rule7_line.

End Rules.

(** The contributions of the rules other than 2 and 3. *)
Definition other_points (unrepresentable : float64 -> Z) (r : Receipt) : Z :=
  rule1_points r + rule4_points r
  + sumZ (map (item_points unrepresentable) (Items r))
  + worth (odd_day r) 6 + worth (afternoon r) 10.

(* ================================================================== *)
(** ** Reading a breakdown line back

    The integer [n] at the head of a line [{n} points ...]: the text before
    the first space read as a decimal integer, provided the word [points]
    follows. *)
Fixpoint cut_token (s : string) : string * string :=
  match s with
  | "" => ("", "")
  | String c s' =>
      if Ascii.eqb c " " then ("", s')
      else let '(tok, rest) := cut_token s' in (String c tok, rest)
  end.

Fixpoint has_prefix (p s : string) : bool :=
  match p, s with
  | "", _ => true
  | String a p', String b s' => Ascii.eqb a b && has_prefix p' s'
  | String _ _, "" => false
  end.

Definition leading_points (line : string) : option Z :=
  let '(tok, rest) := cut_token line in
  if has_prefix "points" rest
  then option_map Z.of_int (NilZero.int_of_string tok)
  else None.

(** The sum of the leading integers of the lines, as a mathematical
    integer; [None] if a line has none. *)
Fixpoint sum_leading (lines : list string) : option Z :=
  match lines with
  | [] => Some 0
  | line :: rest =>
      match leading_points line, sum_leading rest with
      | Some n, Some m => Some (n + m)
      | _, _ => None
      end
  end.

Definition not_space (c : ascii) : bool := negb (Ascii.eqb c " ").

Fixpoint string_forall (p : ascii -> bool) (s : string) : bool :=
  match s with
  | "" => true
  | String c s' => p c && string_forall p s'
  end.

(* ================================================================== *)
(** ** The checks of [validateReceipt], one by one *)

(** The language of a regular expression. *)
Inductive Lang : regex -> string -> Prop :=
| Lang_Eps : Lang Eps ""
| Lang_Class (p : ascii -> bool) (c : ascii) :
    p c = true -> Lang (Class p) (String c "")
| Lang_Cat (r1 r2 : regex) (s1 s2 : string) :
    Lang r1 s1 -> Lang r2 s2 -> Lang (Cat r1 r2) (s1 +++ s2)
| Lang_Alt_l (r1 r2 : regex) (s : string) : Lang r1 s -> Lang (Alt r1 r2) s
| Lang_Alt_r (r1 r2 : regex) (s : string) : Lang r2 s -> Lang (Alt r1 r2) s
| Lang_Star_nil (r : regex) : Lang (Star r) ""
| Lang_Star_app (r : regex) (s1 s2 : string) :
    Lang r s1 -> Lang (Star r) s2 -> Lang (Star r) (s1 +++ s2).

Fixpoint string_In (c : ascii) (s : string) : Prop :=
  match s with
  | "" => False
  | String c' s' => c' = c \/ string_In c s'
  end.

(** The seven reasons. *)
Definition invalid_retailer : error := errors_New "retailer name is invalid".
Definition invalid_date : error :=
  errors_New "purchaseDate must be in YYYY-MM-DD format".
Definition invalid_time : error :=
  errors_New "purchaseTime must be in HH:mm 24-hour format".
Definition empty_items : error :=
  errors_New "items array must have at least one item".
Definition invalid_description : error :=
  errors_New "item shortDescription is invalid".
Definition invalid_price : error :=
  errors_New "item price must be a valid decimal number".
Definition invalid_total : error :=
  errors_New "total must be a valid decimal number".

Definition reasons : list error :=
  [invalid_retailer; invalid_date; invalid_time; empty_items;
   invalid_description; invalid_price; invalid_total].

(** The tests the code applies to each field. *)
Definition retailer_ok (s : string) : bool :=
  negb (String.eqb s "") && MatchString retailer_re s.
Definition date_ok (s : string) : bool :=
  match snd (Parse_date s) with None => true | Some _ => false end.
Definition time_ok (s : string) : bool :=
  match snd (Parse_clock s) with None => true | Some _ => false end.
Definition description_ok (s : string) : bool :=
  negb (String.eqb s "") && MatchString description_re s.
Definition decimal_ok (s : string) : bool := MatchString decimal_re s.

(** The rules of the validator in the order of the specification, each a
    pair of a test for the violation and the reason; per item, the
    description comes before the price. *)
Definition checks (r : Receipt) : list (bool * error) :=
  [ (negb (retailer_ok (Retailer r)), invalid_retailer);
    (negb (date_ok (PurchaseDate r)), invalid_date);
    (negb (time_ok (PurchaseTime r)), invalid_time);
    (match Items r with [] => true | _ :: _ => false end, empty_items) ]
  ++ flat_map (fun it => [ (negb (description_ok (ShortDescription it)),
                            invalid_description);
                           (negb (decimal_ok (Price it)), invalid_price) ])
              (Items r)
  ++ [ (negb (decimal_ok (Total r)), invalid_total) ].

(** Failing fast: the reason of the first violated rule. *)
Fixpoint first_violation (cs : list (bool * error)) : option error :=
  match cs with
  | [] => None
  | (violated, reason) :: cs' =>
      if violated then Some reason else first_violation cs'
  end.

(** The character set the specification gives for the retailer,
    [[A-Za-z0-9 \-&]]. *)
Definition spec_retailer_char (c : ascii) : bool :=
  is_upper c || is_lower c || is_digit c
  || Ascii.eqb c " " || Ascii.eqb c "-" || Ascii.eqb c "&".

(** The characters the code accepts besides: the underscore of [\w] and
    the tab, line feed, form feed and carriage return of [\s]. *)
Definition extra_retailer_char (c : ascii) : bool :=
  Ascii.eqb c "_" || Ascii.eqb c tab || Ascii.eqb c newline
  || Ascii.eqb c formfeed || Ascii.eqb c creturn.

(** A two-digit hour from 00 to 23, a colon, a two-digit minute from 00
    to 59. *)
Definition is_HH_MM (s : string) : bool :=
  match s with
  | String h1 (String h2 (String c (String m1 (String m2 "")))) =>
      is_digit h1 && is_digit h2 && Ascii.eqb c ":" && is_digit m1 && is_digit m2
      && (digit_val h1 * 10 + digit_val h2 <=? 23)
      && (digit_val m1 * 10 + digit_val m2 <=? 59)
  | _ => false
  end.

(** A one-digit hour, a colon, a two-digit minute from 00 to 59. *)
Definition is_H_MM (s : string) : bool :=
  match s with
  | String h (String c (String m1 (String m2 ""))) =>
      is_digit h && Ascii.eqb c ":" && is_digit m1 && is_digit m2
      && (digit_val m1 * 10 + digit_val m2 <=? 59)
  | _ => false
  end.

(** The integer written by the digits of [s], the other bytes skipped:
    for a total or a price [ddd.dd], its number of cents. *)
Fixpoint digits_value_from (acc : Z) (s : string) : Z :=
  match s with
  | "" => acc
  | String c s' =>
      digits_value_from (if is_digit c then acc * 10 + digit_val c else acc) s'
  end.

Definition cents (s : string) : Z := digits_value_from 0 s.

(** The binary64 value nearest to the decimal [ddd.dd] (ties to even). *)
Definition decimal_float (s : string) : float64 := of_ratio false (cents s) 100.

(* ================================================================== *)
(** ** Sample receipts *)

(** The reference payload. *)
Definition reference : Receipt :=
  mkReceipt "" "Target" "2022-01-01" "13:01"
    [mkItem "Mountain Dew 12PK" "6.49";
     mkItem "Emils Cheese Pizza" "12.25";
     mkItem "Knorr Creamy Chicken" "1.26";
     mkItem "Doritos Nacho Cheese" "3.35";
     mkItem "   Klarbrunn 12-PK 12 FL OZ  " "12.00"]
    "35.35" 0 [].

(** A receipt whose retailer has no alphanumeric character and whose
    single item makes no pair. *)
Definition bare : Receipt :=
  mkReceipt "" "&" "2022-01-02" "13:01" [mkItem "ab" "1.00"] "1.10" 0 [].


(** Variants of the reference payload, one field replaced. *)
Definition with_retailer (x : string) (r : Receipt) : Receipt :=
  mkReceipt (ID r) x (PurchaseDate r) (PurchaseTime r) (Items r) (Total r)
            (Points r) (Breakdown r).
Definition with_date (x : string) (r : Receipt) : Receipt :=
  mkReceipt (ID r) (Retailer r) x (PurchaseTime r) (Items r) (Total r)
            (Points r) (Breakdown r).
Definition with_time (x : string) (r : Receipt) : Receipt :=
  mkReceipt (ID r) (Retailer r) (PurchaseDate r) x (Items r) (Total r)
            (Points r) (Breakdown r).
Definition with_items (x : list Item) (r : Receipt) : Receipt :=
  mkReceipt (ID r) (Retailer r) (PurchaseDate r) (PurchaseTime r) x (Total r)
            (Points r) (Breakdown r).
Definition with_total (x : string) (r : Receipt) : Receipt :=
  mkReceipt (ID r) (Retailer r) (PurchaseDate r) (PurchaseTime r) (Items r) x
            (Points r) (Breakdown r).

(** The reference payload with a round total. *)
Definition round_total : Receipt := with_total "10.00" reference.

(** Two items whose price is 5 * 2^62, and a receipt that holds both. *)
Definition huge_item : Item := mkItem "abc" "23058430092136939520.00".
Definition two_huge_items : Receipt := with_items [huge_item; huge_item] reference.

(** The reference payload as the store holds it after scoring. *)
Definition stored_reference : Receipt :=
  mkReceipt "cb445f45-21e3-48b6-acd9-3150c9ed429c" (Retailer reference)
            (PurchaseDate reference) (PurchaseTime reference) (Items reference)
            (Total reference) 28 ["6 points - purchase day is odd"].

(** A receipt that validation would refuse: the total is no number and
    the price of the item is negative. *)
Definition unparseable_total : Receipt :=
  with_total "abc" (with_items [mkItem "abc" "-1000.00"] reference).

(* ================================================================== *)
(** ** Package [strings]: prefixes and suffixes *)

(** [s[i:j]] for [0 <= i <= j <= len(s)]. *)
Definition slice (s : string) (i j : nat) : string := String.substring i (j - i) s.

(** [strings.HasPrefix], [strings.TrimPrefix], [strings.HasSuffix] and
    [strings.TrimSuffix]. *)
Definition HasPrefix (s prefix : string) : bool :=
  (String.length prefix <=? String.length s)%nat
  && String.eqb (slice s 0 (String.length prefix)) prefix.

Definition TrimPrefix (s prefix : string) : string :=
  if HasPrefix s prefix then slice s (String.length prefix) (String.length s) else s.

Definition HasSuffix (s suffix : string) : bool :=
  (String.length suffix <=? String.length s)%nat
  && String.eqb (slice s (String.length s - String.length suffix) (String.length s)) suffix.

Definition TrimSuffix (s suffix : string) : string :=
  if HasSuffix s suffix then slice s 0 (String.length s - String.length suffix) else s.

(* ================================================================== *)
(** ** Package [main]: the store and the handlers *)

(** What a handler reads of an [*http.Request]: the method, [URL.Path]
    and the body. *)
Record Request : Type := mkRequest {
  Method : string;
  Path : string;
  Body : string
}.

(** The Go values the handlers hand to [json.NewEncoder(w).Encode]: maps
    from string keys to a string, an [int] or a slice of strings; the
    encoder writes the keys in sorted order. *)
Inductive JsonField : Type :=
| JsonString (s : string)
| JsonInt (n : Z)
| JsonStrings (l : list string).

Inductive JsonValue : Type :=
| JsonObject (fields : list (string * JsonField)).

(** What a handler writes: the status code, the [Content-Type] header,
    and the body, either the text of [http.Error] or an encoded value. *)
Inductive Payload : Type :=
| Text (msg : string)
| Json (v : JsonValue).

Record Response : Type := mkResponse {
  StatusCode : Z;
  ContentType : string;
  Content : Payload
}.

(** [http.Error(w, msg, code)]: the message and a line feed as plain
    text. *)
Definition http_Error (msg : string) (code : Z) : Response :=
  mkResponse code "text/plain; charset=utf-8" (Text (msg +++ String newline "")).

(** A handler that sets the [Content-Type] to JSON and encodes [v]; the
    status is the default 200. *)
Definition json_OK (v : JsonValue) : Response :=
  mkResponse 200 "application/json" (Json v).

(** [receipts], a [map[string]Receipt]: lookup and assignment by key.
    The mutex guards each access; requests are served here one at a
    time. *)
Definition Store : Type := string -> option Receipt.

Definition make_map : Store := fun _ => None.

Definition map_set (m : Store) (key : string) (v : Receipt) : Store :=
  fun k => if String.eqb k key then Some v else m k.

(** [err.Error()] of an [errors.New] value. *)
Definition Error (e : error) : string := match e with errors_New msg => msg end.

(** The receipt [processReceipt] stores for a decoded [receipt] and a new
    identifier. *)
Definition scored (unrepresentable : float64 -> Z) (fresh : string)
  (receipt : Receipt) : Receipt :=
  mkReceipt fresh (Retailer receipt) (PurchaseDate receipt)
            (PurchaseTime receipt) (Items receipt) (Total receipt)
            (fst (calculatePoints unrepresentable receipt))
            (snd (calculatePoints unrepresentable receipt)).

(** The two paths of the read side. *)
Definition points_path (id : string) : string := "/receipts/" +++ id +++ "/points".
Definition breakdown_path (id : string) : string := "/receipts/" +++ id +++ "/breakdown".

Section Server.

(** What [int(x)] gives for an [x] that no [int] represents. *)
Variable unrepresentable : float64 -> Z.

(** [json.NewDecoder(r.Body).Decode(&receipt)] on a body: the receipt
    decoded, or [None] for an error.  The fields [ID] and [Breakdown] may
    come from the body. *)
Variable json_Decode : string -> option Receipt.

(** The error of [uuid.Parse(u)], [None] for [nil]. *)
Variable uuid_Parse : string -> option error.

Definition isValidUUID (u : string) : bool :=
  match uuid_Parse u with
  | None => true
  | Some _ => false
  end.

(** [processReceipt]; [fresh] is the identifier [uuid.NewString()]
    returns when it is called. *)
Definition processReceipt (fresh : string) (receipts : Store) (r : Request)
  : Response * Store :=
  if negb (String.eqb (Method r) "POST") then
    (http_Error "Only POST method is allowed" 405, receipts)
  else
    match json_Decode (Body r) with
    | None => (http_Error "Invalid JSON format" 400, receipts)
    | Some receipt =>
        match validateReceipt receipt with
        | Some err =>
            (http_Error ("Invalid receipt: " +++ Error err) 400, receipts)
        | None =>
            let receipt :=
              mkReceipt fresh (Retailer receipt) (PurchaseDate receipt)
                        (PurchaseTime receipt) (Items receipt) (Total receipt)
                        (Points receipt) (Breakdown receipt) in
            let '(points, breakdown) := calculatePoints unrepresentable receipt in
            let receipt :=
              mkReceipt (ID receipt) (Retailer receipt) (PurchaseDate receipt)
                        (PurchaseTime receipt) (Items receipt) (Total receipt)
                        points breakdown in
            (json_OK (JsonObject [("id", JsonString (ID receipt))]),
             map_set receipts (ID receipt) receipt)
        end
    end.

Definition getPoints (receipts : Store) (id : string) : Response :=
  if negb (isValidUUID id) then http_Error "Invalid ID format" 400
  else
    match receipts id with
    | None => http_Error "Receipt not found" 404
    | Some receipt => json_OK (JsonObject [("points", JsonInt (Points receipt))])
    end.

Definition getBreakdown (receipts : Store) (id : string) : Response :=
  if negb (isValidUUID id) then http_Error "Invalid ID format" 400
  else
    match receipts id with
    | None => http_Error "Receipt not found" 404
    | Some receipt =>
        json_OK (JsonObject [("breakdown", JsonStrings (Breakdown receipt));
                             ("points", JsonInt (Points receipt))])
    end.

Definition handleRequests (receipts : Store) (r : Request) : Response :=
  if negb (String.eqb (Method r) "GET") then
    http_Error "Only GET method is allowed" 405
  else
    let id := TrimPrefix (Path r) "/receipts/" in
    if HasSuffix id "/points" then getPoints receipts (TrimSuffix id "/points")
    else if HasSuffix id "/breakdown" then
      getBreakdown receipts (TrimSuffix id "/breakdown")
    else http_Error "Invalid endpoint" 404.

(** [logRequest]: the handler itself, after a line in the log. *)
Definition logRequest {A B : Type} (handler : A -> B) : A -> B := handler.

(** The stores the server can reach: the empty map of the start, then
    one [processReceipt] after another. *)
Inductive reachable : Store -> Prop :=
| reachable_start : reachable make_map
| reachable_process (fresh : string) (receipts : Store) (r : Request) :
    reachable receipts -> reachable (snd (processReceipt fresh receipts r)).

(** What the store keeps of each receipt: the key is its identifier, the
    receipt passes validation, and the points and breakdown are those
    [calculatePoints] gives for it. *)
Definition well_scored (key : string) (receipt : Receipt) : Prop :=
  ID receipt = key
  /\ validateReceipt receipt = None
  /\ calculatePoints unrepresentable receipt = (Points receipt, Breakdown receipt).

End Server.

(* ================================================================== *)
(** ** The accepted dates and decimals, byte by byte *)

(** Ten bytes [YYYY-MM-DD], all digits but the two hyphens, with a month
    from 01 to 12 and a day from 01 to the last day of that month in
    that year. *)
Definition is_YYYY_MM_DD (s : string) : bool :=
  match s with
  | String y1 (String y2 (String y3 (String y4 (String p (String m1 (String m2
      (String q (String d1 (String d2 ""))))))))) =>
      let year :=
        ((digit_val y1 * 10 + digit_val y2) * 10 + digit_val y3) * 10 + digit_val y4 in
      let month := digit_val m1 * 10 + digit_val m2 in
      let day := digit_val d1 * 10 + digit_val d2 in
      is_digit y1 && is_digit y2 && is_digit y3 && is_digit y4 && Ascii.eqb p "-"
      && is_digit m1 && is_digit m2 && Ascii.eqb q "-"
      && is_digit d1 && is_digit d2
      && (1 <=? month) && (month <=? 12) && (1 <=? day) && (day <=? daysIn month year)
  | _ => false
  end.

(** One digit or more, a point, two digits. *)
Fixpoint decimal_tail (s : string) : bool :=
  match s with
  | "" => false
  | String c s' =>
      if is_digit c then decimal_tail s'
      else Ascii.eqb c "."
           && match s' with
              | String a (String b "") => is_digit a && is_digit b
              | _ => false
              end
  end.

Definition is_decimal (s : string) : bool :=
  match s with
  | "" => false
  | String c s' => is_digit c && decimal_tail s'
  end.

(** The value of the byte of [s] at index [i], as a digit. *)
Definition digit_at (i : nat) (s : string) : Z :=
  match String.get i s with
  | Some c => digit_val c
  | None => 0
  end.

(** The test of [countAlphanumeric], and the number of bytes of [s] that
    pass a test. *)
Definition alphanumeric (c : ascii) : bool :=
  between "a" c "z" || between "A" c "Z" || between "0" c "9".

Fixpoint count_bytes (p : ascii -> bool) (s : string) : nat :=
  match s with
  | "" => 0%nat
  | String c s' => ((if p c then 1 else 0) + count_bytes p s')%nat
  end.

(** A float that holds an integer: a zero, or a finite value whose
    mantissa is a multiple of two to the opposite of its exponent. *)
Definition integral (x : float64) : Prop :=
  match x with
  | S754_zero _ => True
  | S754_finite _ m e => 0 <= e \/ (e < 0 /\ exists k, Zpos m = k * 2 ^ (- e))
  | _ => False
  end.

(* ================================================================== *)
(** ** Sample requests *)

(** A decoder for examples: two bodies decode, to the reference payload
    and to a receipt with a total that validation refuses. *)
Definition sample_Decode (body : string) : option Receipt :=
  if String.eqb body "reference" then Some reference
  else if String.eqb body "total 35" then Some (with_total "35" reference)
  else None.

Definition is_hex (c : ascii) : bool :=
  is_digit c || between "a" c "f" || between "A" c "F".

(** An identifier parser for examples: it accepts the canonical form of
    36 bytes, hexadecimal digits in groups of 8, 4, 4, 4 and 12 with
    hyphens between them, and nothing else. *)
Definition canonical_Parse (u : string) : option error :=
  let hex_or_hyphen (i : nat) (c : ascii) : bool :=
    if existsb (Nat.eqb i) [8; 13; 18; 23]%nat then Ascii.eqb c "-" else is_hex c in
  let fix scan (i : nat) (s : string) : bool :=
    match s with
    | "" => Nat.eqb i 36
    | String c s' => hex_or_hyphen i c && scan (S i) s'
    end in
  if scan 0%nat u then None else Some (errors_New "invalid UUID format").

Definition sample_id : string := "cb445f45-21e3-48b6-acd9-3150c9ed429c".
Definition other_id : string := "7fb1377b-b223-49d9-a31a-5a02701dd310".

Definition post (body : string) : Request := mkRequest "POST" "/receipts/process" body.
Definition get (path : string) : Request := mkRequest "GET" path "".

(** The store after the reference payload has been submitted once. *)
Definition one_receipt : Store :=
  snd (processReceipt amd64_unrepresentable sample_Decode sample_id make_map
                      (post "reference")).

(* ================================================================== *)
(** ** Arithmetic of [int] *)

Lemma wrap_range (z : Z) : GoInt.min_int <= GoInt.wrap z <= GoInt.max_int.
Proof.
  unfold GoInt.wrap, GoInt.min_int, GoInt.max_int.
  pose proof (Z.mod_pos_bound (z + 2 ^ 63) (2 ^ 64) ltac:(lia)). lia.
Qed.

Lemma wrap_small (z : Z) :
  GoInt.min_int <= z <= GoInt.max_int -> GoInt.wrap z = z.
Proof.
  unfold GoInt.wrap, GoInt.min_int, GoInt.max_int. intros H.
  rewrite Z.mod_small by lia. lia.
Qed.

Lemma wrap_add_l (a b : Z) : GoInt.wrap (GoInt.wrap a + b) = GoInt.wrap (a + b).
Proof.
  unfold GoInt.wrap.
  replace ((a + 2 ^ 63) mod 2 ^ 64 - 2 ^ 63 + b + 2 ^ 63)
    with ((a + 2 ^ 63) mod 2 ^ 64 + b) by lia.
  rewrite Zplus_mod_idemp_l. f_equal. f_equal. lia.
Qed.

Lemma wrap_add_r (a b : Z) : GoInt.wrap (a + GoInt.wrap b) = GoInt.wrap (a + b).
Proof. rewrite Z.add_comm, wrap_add_l. f_equal. lia. Qed.

Lemma wrap_wrap (a : Z) : GoInt.wrap (GoInt.wrap a) = GoInt.wrap a.
Proof. apply wrap_small, wrap_range. Qed.

Lemma sumZ_cons (a : Z) (l : list Z) : sumZ (a :: l) = a + sumZ l.
Proof. reflexivity. Qed.

Lemma sumZ_app (l1 l2 : list Z) : sumZ (l1 ++ l2) = sumZ l1 + sumZ l2.
Proof. induction l1 as [| a l1 IH]; cbn [app]; rewrite ?sumZ_cons, ?IH; cbn; lia. Qed.

(* ================================================================== *)
(** ** The closed form of [calculatePoints] *)

Section Closed.

Variable unrepresentable : float64 -> Z.

Lemma scoreItem_eq (p : Z) (b : list string) (it : Item) :
  scoreItem unrepresentable (p, b) it
  = (if item_qualifies it then GoInt.add p (price_points unrepresentable (Price it)) else p,
     b ++ item_lines unrepresentable it).
Proof.
  unfold scoreItem, item_lines, item_qualifies, trimmed_length, when.
  destruct (Z.rem _ 3 =? 0); [reflexivity | now rewrite app_nil_r].
Qed.

(** The rule 5 loop adds up the items' points and appends their lines
    in item order. *)
Lemma scoreItems_eq (items : list Item) (p : Z) (b : list string) :
  fold_left (scoreItem unrepresentable) items (GoInt.wrap p, b)
  = (GoInt.wrap (p + sumZ (map (item_points unrepresentable) items)),
     b ++ flat_map (item_lines unrepresentable) items).
Proof.
  revert p b. induction items as [| it items IH]; intros p b;
    cbn [fold_left map flat_map].
  - cbn. now rewrite Z.add_0_r, app_nil_r.
  - rewrite scoreItem_eq. rewrite sumZ_cons. unfold item_points at 1, worth.
    destruct (item_qualifies it).
    + unfold GoInt.add. rewrite wrap_add_l, IH, app_assoc. f_equal. f_equal. lia.
    + rewrite IH, app_assoc. f_equal.
Qed.

Lemma calculatePoints_closed (r : Receipt) :
  calculatePoints unrepresentable r
  = (GoInt.wrap (raw_points unrepresentable r), all_lines unrepresentable r).
Proof.
  unfold calculatePoints, raw_points, all_lines, total_points, total_lines.
  fold (total_value r). fold (rule1_points r). fold (rule1_line r).
  fold (round_dollar unrepresentable (total_value r)).
  fold (quarter_multiple (total_value r)).
  fold (rule4_pairs r). fold (rule4_points r). fold (rule4_line r).
  fold (odd_day r).
  change ((Hour (fst (Parse_clock (PurchaseTime r))) =? 14)
          || (Hour (fst (Parse_clock (PurchaseTime r))) =? 15)) with (afternoon r).
  fold rule2_line. fold rule3_line. fold rule6_line. fold rule7_line.
  unfold GoInt.add.
  destruct (round_dollar unrepresentable (total_value r));
    destruct (quarter_multiple (total_value r)); cbn [worth when];
    rewrite ?wrap_add_l, scoreItems_eq;
    destruct (odd_day r); destruct (afternoon r); cbn [worth when];
    repeat first [ rewrite wrap_add_l | rewrite <- Z.add_assoc ];
    (apply injective_projections; cbn [fst snd];
     [ apply (f_equal GoInt.wrap); lia | ]);
    rewrite <- ?app_assoc; cbn [List.app]; rewrite ?app_nil_r; reflexivity.
Qed.

End Closed.


(* ================================================================== *)
(** ** Reading the breakdown back *)

Lemma cut_token_app (tok rest : string) :
  string_forall not_space tok = true ->
  cut_token (tok +++ String " " rest) = (tok, rest).
Proof.
  induction tok as [| c tok IH]; cbn [append cut_token string_forall].
  - reflexivity.
  - intros H. apply andb_prop in H as [Hc Htok].
    unfold not_space in Hc. apply negb_true_iff in Hc. rewrite Hc.
    now rewrite (IH Htok).
Qed.

Lemma string_of_uint_not_space (d : Decimal.uint) :
  string_forall not_space (NilEmpty.string_of_uint d) = true.
Proof. induction d; cbn; auto. Qed.

Lemma itoa_not_space (n : Z) : string_forall not_space (itoa n) = true.
Proof.
  unfold itoa. destruct (Z.to_int n) as [d | d]; cbn.
  - destruct d; try reflexivity; apply (string_of_uint_not_space (_ _)).
  - destruct d; try reflexivity; apply (string_of_uint_not_space (_ _)).
Qed.

Lemma to_int_not_nil (n : Z) :
  Z.to_int n <> Decimal.Pos Decimal.Nil /\ Z.to_int n <> Decimal.Neg Decimal.Nil.
Proof.
  split; intros H; pose proof (DecimalZ.of_to n) as E; rewrite H in E;
    cbn in E; subst n; discriminate H.
Qed.

Lemma int_of_string_itoa (n : Z) :
  option_map Z.of_int (NilZero.int_of_string (itoa n)) = Some n.
Proof.
  unfold itoa. destruct (to_int_not_nil n) as [H1 H2].
  rewrite (NilZero.isi _ H1 H2). cbn. now rewrite DecimalZ.of_to.
Qed.

(** A line that starts with [itoa n] and the word [points] reads back as
    [n]. *)
Lemma leading_points_itoa (n : Z) (rest : string) :
  leading_points (itoa n +++ " points" +++ rest) = Some n.
Proof.
  unfold leading_points. cbn [append].
  rewrite (cut_token_app _ _ (itoa_not_space n)).
  cbn [has_prefix]. rewrite !Ascii.eqb_refl. cbn [andb].
  destruct rest; apply int_of_string_itoa.
Qed.

Lemma sum_leading_app (l1 l2 : list string) (a b : Z) :
  sum_leading l1 = Some a -> sum_leading l2 = Some b ->
  sum_leading (l1 ++ l2) = Some (a + b).
Proof.
  revert a. induction l1 as [| line l1 IH]; intros a; cbn [app sum_leading].
  - intros [= <-] ->. reflexivity.
  - destruct (leading_points line) as [n |]; [| discriminate].
    destruct (sum_leading l1) as [m |]; [| discriminate].
    intros [= <-] H2. rewrite (IH m eq_refl H2). f_equal. lia.
Qed.

Lemma sum_leading_when (b : bool) (n : Z) (line : string) :
  leading_points line = Some n ->
  sum_leading (when b line) = Some (worth b n).
Proof.
  intros H. destruct b; cbn [when worth sum_leading]; [rewrite H |]; f_equal; lia.
Qed.

Lemma leading_points_rule1 (r : Receipt) :
  leading_points (rule1_line r) = Some (rule1_points r).
Proof. unfold rule1_line. apply (leading_points_itoa _ (String _ _)). Qed.

Lemma leading_points_rule4 (r : Receipt) :
  leading_points (rule4_line r) = Some (rule4_points r).
Proof. unfold rule4_line. apply (leading_points_itoa _ (String _ _)). Qed.

Section Readback.

Variable unrepresentable : float64 -> Z.

Lemma leading_points_item_line (it : Item) :
  leading_points (item_line unrepresentable it)
  = Some (price_points unrepresentable (Price it)).
Proof. unfold item_line. apply (leading_points_itoa _ (String _ _)). Qed.

Lemma sum_leading_items (items : list Item) :
  sum_leading (flat_map (item_lines unrepresentable) items)
  = Some (sumZ (map (item_points unrepresentable) items)).
Proof.
  induction items as [| it items IH]; [reflexivity |].
  cbn [flat_map map]. rewrite sumZ_cons.
  apply sum_leading_app; [| exact IH].
  unfold item_lines, item_points. apply sum_leading_when, leading_points_item_line.
Qed.

(** Every line of the breakdown reads back, and the integers read add up
    to the sum of the contributions. *)
Lemma sum_leading_all_lines (r : Receipt) :
  sum_leading (all_lines unrepresentable r) = Some (raw_points unrepresentable r).
Proof.
  unfold all_lines, raw_points, total_lines, total_points.
  rewrite <- !Z.add_assoc.
  apply sum_leading_app.
  { cbn [sum_leading]. rewrite leading_points_rule1. f_equal. lia. }
  rewrite <- app_assoc.
  repeat (apply sum_leading_app; [try (apply sum_leading_when; reflexivity) |]).
  - cbn [sum_leading]. rewrite leading_points_rule4. f_equal. lia.
  - apply sum_leading_items.
  - apply sum_leading_when; reflexivity.
Qed.

End Readback.

(* ================================================================== *)
(** ** The matcher against the language of the pattern *)

Lemma append_nil_inv (s1 s2 : string) : s1 +++ s2 = "" -> s1 = "" /\ s2 = "".
Proof. destruct s1; cbn; [auto | discriminate]. Qed.

Lemma append_cons_inv (s1 s2 s : string) (c : ascii) :
  s1 +++ s2 = String c s ->
  (s1 = "" /\ s2 = String c s) \/ (exists s1', s1 = String c s1' /\ s = s1' +++ s2).
Proof.
  destruct s1 as [| c1 s1]; cbn.
  - auto.
  - intros [= -> <-]. right. exists s1. auto.
Qed.

Lemma nullable_Lang (r : regex) : nullable r = true <-> Lang r "".
Proof.
  induction r as [| | p | r1 IH1 r2 IH2 | r1 IH1 r2 IH2 | r IH]; cbn [nullable].
  - split; [discriminate | inversion 1].
  - split; [constructor | reflexivity].
  - split; [discriminate | inversion 1].
  - rewrite andb_true_iff, IH1, IH2. split.
    + intros [H1 H2]. exact (Lang_Cat _ _ "" "" H1 H2).
    + inversion 1 as [| | ? ? s1 s2 H1 H2 E1 E2 | | | |]; subst.
      apply append_nil_inv in E2 as [-> ->]. auto.
  - rewrite orb_true_iff, IH1, IH2. split.
    + intros [H | H]; [now apply Lang_Alt_l | now apply Lang_Alt_r].
    + inversion 1; subst; auto.
  - split; [constructor | reflexivity].
Qed.

(** A non-empty word of [r*] starts with a non-empty word of [r]. *)
Lemma Lang_Star_cons (r : regex) (c : ascii) (s : string) :
  Lang (Star r) (String c s) ->
  exists s1 s2, s = s1 +++ s2 /\ Lang r (String c s1) /\ Lang (Star r) s2.
Proof.
  intros H. remember (Star r) as r' eqn:Er. remember (String c s) as w eqn:Ew.
  revert Er Ew.
  induction H as [| | | | | | r0 s1 s2 H1 _ H2 IH2]; try discriminate.
  intros [= ->] E.
  apply append_cons_inv in E as [[-> ->] | (s1' & -> & ->)].
  - apply IH2; reflexivity.
  - exists s1', s2. auto.
Qed.

Lemma deriv_Lang (r : regex) :
  forall (c : ascii) (s : string), Lang (deriv r c) s <-> Lang r (String c s).
Proof.
  induction r as [| | p | r1 IH1 r2 IH2 | r1 IH1 r2 IH2 | r IH];
    intros c s; cbn [deriv].
  - split; inversion 1.
  - split; inversion 1.
  - split.
    + destruct (p c) eqn:Hp; inversion 1; subst. now constructor.
    + inversion 1 as [| ? ? Hp | | | | |]; subst. rewrite Hp. constructor.
  - assert (Hcat : Lang (Cat (deriv r1 c) r2) s ->
                   Lang (Cat r1 r2) (String c s)).
    { inversion 1 as [| | ? ? s1 s2 H1 H2 | | | |]; subst.
      apply IH1 in H1. exact (Lang_Cat _ _ _ _ H1 H2). }
    split.
    + destruct (nullable r1) eqn:Hn; [| exact Hcat].
      inversion 1 as [| | | ? ? ? H1 | ? ? ? H2 | |]; subst; [now apply Hcat |].
      apply IH2 in H2. apply nullable_Lang in Hn.
      exact (Lang_Cat _ _ "" _ Hn H2).
    + inversion 1 as [| | ? ? s1 s2 H1 H2 E1 E2 | | | |]; subst.
      apply append_cons_inv in E2 as [[-> ->] | (s1' & -> & ->)].
      * apply nullable_Lang in H1 as Hn. rewrite Hn.
        apply Lang_Alt_r. now apply IH2.
      * apply IH1 in H1.
        destruct (nullable r1); [apply Lang_Alt_l |]; now constructor.
  - split.
    + inversion 1; subst; [apply Lang_Alt_l; now apply IH1
                          | apply Lang_Alt_r; now apply IH2].
    + inversion 1; subst; [apply Lang_Alt_l; now apply IH1
                          | apply Lang_Alt_r; now apply IH2].
  - split.
    + inversion 1 as [| | ? ? s1 s2 H1 H2 | | | |]; subst.
      apply IH in H1. exact (Lang_Star_app _ _ _ H1 H2).
    + intros H. apply Lang_Star_cons in H as (s1 & s2 & -> & H1 & H2).
      apply IH in H1. now constructor.
Qed.

(** [MatchString] decides membership in the language of the pattern. *)
Lemma MatchString_Lang (r : regex) (s : string) :
  MatchString r s = true <-> Lang r s.
Proof.
  revert r. induction s as [| c s IH]; intros r; cbn [MatchString].
  - apply nullable_Lang.
  - rewrite IH. apply deriv_Lang.
Qed.

Lemma Lang_Star_Class (p : ascii -> bool) (s : string) :
  Lang (Star (Class p)) s <-> string_forall p s = true.
Proof.
  split.
  - intros H. remember (Star (Class p)) as r eqn:Er. revert Er.
    induction H as [| | | | | | r0 s1 s2 H1 _ H2 IH2]; try discriminate.
    + reflexivity.
    + intros [= ->]. inversion H1; subst. cbn. rewrite IH2 by reflexivity.
      now rewrite andb_true_r.
  - induction s as [| c s IH]; cbn [string_forall].
    + constructor.
    + intros H. apply andb_prop in H as [Hc Hs].
      apply (Lang_Star_app _ (String c "") s); [now constructor | auto].
Qed.

(** [^[...]+$] accepts the non-empty strings made of bytes of the class. *)
Lemma MatchString_Plus_Class (p : ascii -> bool) (s : string) :
  MatchString (Plus (Class p)) s = negb (String.eqb s "") && string_forall p s.
Proof.
  apply eq_true_iff_eq. rewrite MatchString_Lang. unfold Plus. split.
  - inversion 1 as [| | ? ? s1 s2 H1 H2 | | | |]; subst.
    inversion H1 as [| ? c Hp | | | | |]; subst. apply Lang_Star_Class in H2.
    cbn [append String.eqb negb string_forall]. now rewrite H2, Hp.
  - destruct s as [| c s]; cbn [String.eqb negb andb string_forall]; [discriminate |].
    intros H. apply andb_prop in H as [Hc Hs].
    apply (Lang_Cat _ _ (String c "") s); [now constructor |].
    now apply Lang_Star_Class.
Qed.

Lemma string_forall_false (p : ascii -> bool) (s : string) :
  string_forall p s = false <-> exists c, string_In c s /\ p c = false.
Proof.
  induction s as [| c s IH]; cbn [string_forall string_In].
  - split; [discriminate | intros (c & [] & _)].
  - rewrite andb_false_iff, IH. split.
    + intros [H | (c' & Hin & H)]; [exists c | exists c']; auto.
    + intros (c' & [-> | Hin] & H); [left | right; exists c']; auto.
Qed.

Lemma decimal_ok_shape (s : string) :
  decimal_ok s = true ->
  exists ds a b,
    s = ds +++ String "." (String a (String b ""))
    /\ ds <> "" /\ string_forall is_digit ds = true
    /\ is_digit a = true /\ is_digit b = true.
Proof.
  unfold decimal_ok, decimal_re, Twice. rewrite MatchString_Lang.
  inversion 1 as [| | ? ? ds s2 Hds H2 | | | |]; subst.
  inversion H2 as [| | ? ? s3 s4 H3 H4 | | | |]; subst.
  inversion H3 as [| ? dot Hdot | | | | |]; subst.
  inversion H4 as [| | ? ? s5 s6 H5 H6 | | | |]; subst.
  inversion H5 as [| ? a Ha | | | | |]; subst.
  inversion H6 as [| ? b Hb | | | | |]; subst.
  apply MatchString_Lang in Hds. rewrite MatchString_Plus_Class in Hds.
  apply andb_prop in Hds as [Hne Hall].
  unfold lit in Hdot. apply Ascii.eqb_eq in Hdot. subst dot.
  exists ds, a, b. cbn [append]. repeat split; auto.
  intros ->. discriminate Hne.
Qed.

(* ================================================================== *)
(** ** The validator, check by check *)

Lemma validateItems_first_violation (items : list Item) (tail : list (bool * error)) :
  match validateItems items with
  | Some e => Some e
  | None => first_violation tail
  end
  = first_violation
      (flat_map (fun it => [ (negb (description_ok (ShortDescription it)),
                              invalid_description);
                             (negb (decimal_ok (Price it)), invalid_price) ])
                items ++ tail).
Proof.
  induction items as [| it items IH]; [reflexivity |].
  cbn [validateItems flat_map app first_violation].
  unfold description_ok, decimal_ok.
  destruct (String.eqb (ShortDescription it) ""); [reflexivity |].
  destruct (MatchString description_re (ShortDescription it)); [| reflexivity].
  destruct (MatchString decimal_re (Price it)); [| reflexivity].
  exact IH.
Qed.

(** [validateReceipt] returns the reason of the first violated rule, in
    the order of [checks]. *)
Lemma validateReceipt_first_violation (r : Receipt) :
  validateReceipt r = first_violation (checks r).
Proof.
  unfold validateReceipt, checks. cbn [app first_violation].
  unfold retailer_ok, date_ok, time_ok.
  destruct (String.eqb (Retailer r) ""); [reflexivity |].
  destruct (MatchString retailer_re (Retailer r)); [| reflexivity].
  destruct (snd (Parse_date (PurchaseDate r))); [reflexivity |].
  destruct (snd (Parse_clock (PurchaseTime r))); [reflexivity |].
  cbn [negb andb].
  rewrite <- validateItems_first_violation.
  destruct (Items r) as [| it items]; [reflexivity |].
  replace (GoInt.len_list (it :: items) <? 1) with false.
  - cbn [first_violation]. unfold decimal_ok.
    destruct (validateItems (it :: items)); [reflexivity |].
    destruct (MatchString decimal_re (Total r)); reflexivity.
  - symmetry. apply Z.ltb_ge. unfold GoInt.len_list. cbn [List.length]. lia.
Qed.

Lemma first_violation_In (cs : list (bool * error)) (e : error) :
  first_violation cs = Some e -> In e (map snd cs).
Proof.
  induction cs as [| [b e'] cs IH]; cbn [first_violation map snd]; [discriminate |].
  destruct b; [intros [= ->]; now left | right; auto].
Qed.

Lemma first_violation_None (cs : list (bool * error)) :
  first_violation cs = None -> Forall (fun c => fst c = false) cs.
Proof.
  induction cs as [| [b e] cs IH]; cbn [first_violation]; [constructor |].
  destruct b; [discriminate |]. constructor; auto.
Qed.

(** The reasons that can follow the first three checks. *)
Lemma later_reasons (r : Receipt) (e : error) :
  In e (map snd (skipn 3 (checks r))) ->
  In e [empty_items; invalid_description; invalid_price; invalid_total].
Proof.
  unfold checks. cbn [app skipn map snd]. intros [<- | H]; [now left |].
  rewrite map_app in H. apply in_app_or in H as [H | [<- | []]].
  - induction (Items r) as [| it items IH]; [destruct H |].
    cbn [flat_map app map snd] in H.
    destruct H as [<- | [<- | H]]; [cbn; auto | cbn; auto | exact (IH H)].
  - cbn; auto.
Qed.

(** What a validated receipt satisfies, field by field. *)
Lemma validated_fields (r : Receipt) :
  validateReceipt r = None ->
  retailer_ok (Retailer r) = true
  /\ date_ok (PurchaseDate r) = true
  /\ time_ok (PurchaseTime r) = true
  /\ Items r <> []
  /\ Forall (fun it => description_ok (ShortDescription it) = true
                       /\ decimal_ok (Price it) = true) (Items r)
  /\ decimal_ok (Total r) = true.
Proof.
  rewrite validateReceipt_first_violation. intros H.
  apply first_violation_None in H. unfold checks in H.
  cbn [app] in H.
  inversion H as [| ? ? H1 H']; subst; clear H.
  inversion H' as [| ? ? H2 H'']; subst; clear H'.
  inversion H'' as [| ? ? H3 H']; subst; clear H''.
  inversion H' as [| ? ? H4 H'']; subst; clear H'.
  apply Forall_app in H'' as [Hitems Htotal].
  inversion Htotal as [| ? ? H5 _]; subst; clear Htotal.
  cbn [fst] in *. apply negb_false_iff in H1, H2, H3, H5.
  repeat split; auto.
  - intros E. rewrite E in H4. discriminate H4.
  - clear - Hitems. induction (Items r) as [| it items IH]; [constructor |].
    cbn [flat_map app] in Hitems.
    inversion Hitems as [| ? ? Hd H']; subst.
    inversion H' as [| ? ? Hp H'']; subst.
    cbn [fst] in *. apply negb_false_iff in Hd, Hp. constructor; auto.
Qed.

Lemma retailer_class_split (c : ascii) :
  retailer_class c = spec_retailer_char c || extra_retailer_char c.
Proof. destruct c as [[] [] [] [] [] [] [] []]; reflexivity. Qed.

Lemma retailer_ok_iff (s : string) :
  retailer_ok s = false
  <-> s = "" \/ exists c, string_In c s /\ retailer_class c = false.
Proof.
  unfold retailer_ok, retailer_re. rewrite MatchString_Plus_Class.
  rewrite <- string_forall_false.
  destruct (String.eqb_spec s "") as [-> | Hne]; cbn [negb andb].
  - intuition.
  - destruct (string_forall retailer_class s); intuition.
Qed.

Lemma validateReceipt_invalid_retailer (r : Receipt) :
  validateReceipt r = Some invalid_retailer <-> retailer_ok (Retailer r) = false.
Proof.
  rewrite validateReceipt_first_violation.
  change (checks r) with (firstn 3 (checks r) ++ skipn 3 (checks r)) at 1.
  unfold checks at 1. cbn [app firstn first_violation].
  destruct (retailer_ok (Retailer r)); cbn [negb]; [| intuition].
  split; [| discriminate].
  destruct (negb (date_ok (PurchaseDate r))); [discriminate |].
  destruct (negb (time_ok (PurchaseTime r))); [discriminate |].
  intros H. apply first_violation_In, later_reasons in H.
  cbn [In] in H. intuition discriminate.
Qed.

Lemma digit_val_bounds (c : ascii) : is_digit c = true -> 0 <= digit_val c <= 9.
Proof.
  unfold is_digit, between, digit_val. change (code "0") with 48. change (code "9") with 57.
  intros H. apply andb_prop in H as [H1 H2]. apply Z.leb_le in H1, H2. lia.
Qed.

Lemma is_digit_colon : is_digit ":" = false.
Proof. reflexivity. Qed.

Ltac time_cases :=
  repeat (cbn -[digit_val is_digit Z.mul Z.add Z.ltb Z.leb Ascii.eqb];
          rewrite ?Ascii.eqb_refl;
          match goal with
          | |- context [Ascii.eqb ?x ":"] =>
              is_var x;
              destruct (Ascii.eqb_spec x ":"); [subst x; rewrite ?is_digit_colon |]
          | |- context [is_digit ?x] =>
              is_var x;
              let H := fresh "Hd" in
              destruct (is_digit x) eqn:H; [apply digit_val_bounds in H |]
          | |- context [?x <? ?y] => destruct (Z.ltb_spec x y)
          | |- context [?x <=? ?y] => destruct (Z.leb_spec x y)
          end).

Lemma time_ok_spec (s : string) : time_ok s = is_HH_MM s || is_H_MM s.
Proof.
  unfold time_ok, Parse_clock, getnum, skip, is_HH_MM, is_H_MM.
  destruct s as [| a [| b [| c [| d [| e [| f s]]]]]];
    time_cases; try reflexivity; try lia; try congruence.
Qed.

Lemma validateReceipt_invalid_time (r : Receipt) :
  validateReceipt r = Some invalid_time
  <-> retailer_ok (Retailer r) = true
      /\ date_ok (PurchaseDate r) = true
      /\ time_ok (PurchaseTime r) = false.
Proof.
  rewrite validateReceipt_first_violation.
  change (checks r) with (firstn 3 (checks r) ++ skipn 3 (checks r)) at 1.
  unfold checks at 1. cbn [app firstn first_violation].
  destruct (retailer_ok (Retailer r)); cbn [negb];
    [| split; [discriminate | intros (H & _); discriminate H]].
  destruct (date_ok (PurchaseDate r)); cbn [negb];
    [| split; [discriminate | intros (_ & H & _); discriminate H]].
  destruct (time_ok (PurchaseTime r)); cbn [negb]; [| intuition].
  split; [| intros (_ & _ & H); discriminate H].
  intros H. apply first_violation_In, later_reasons in H.
  cbn [In] in H. intuition discriminate.
Qed.

(* ================================================================== *)
(** ** [ParseFloat] on totals and prices *)

Lemma ParseFloat_syntax_error (s : string) :
  snd (ParseFloat s) = Some ErrSyntax -> fst (ParseFloat s) = zero.
Proof.
  unfold ParseFloat.
  destruct (special s) as [[f rest] |].
  - destruct (String.eqb rest ""); cbn; [discriminate | reflexivity].
  - destruct (readFloat s) as [[[[[neg m] e] hex] rest] |]; [| reflexivity].
    destruct (negb (String.eqb rest "")); [reflexivity |].
    destruct (float_of_literal neg m e hex); cbn; discriminate.
Qed.

Lemma ParseFloat_range_error (s : string) :
  snd (ParseFloat s) = Some ErrRange ->
  exists neg, fst (ParseFloat s) = S754_infinity neg.
Proof.
  unfold ParseFloat.
  destruct (special s) as [[f rest] |].
  - destruct (String.eqb rest ""); cbn; discriminate.
  - destruct (readFloat s) as [[[[[neg m] e] hex] rest] |]; [| discriminate].
    destruct (negb (String.eqb rest "")); [discriminate |].
    destruct (float_of_literal neg m e hex) as [| neg' | |]; cbn; try discriminate.
    intros _. now exists neg'.
Qed.

Lemma digits_value_from_app (s1 s2 : string) (acc : Z) :
  digits_value_from acc (s1 +++ s2) = digits_value_from (digits_value_from acc s1) s2.
Proof. revert acc. induction s1 as [| c s1 IH]; intros acc; cbn; auto. Qed.

Lemma digit_not (c d : ascii) :
  is_digit c = true -> is_digit d = false -> Ascii.eqb c d = false.
Proof. intros Hc Hd. destruct (Ascii.eqb_spec c d); [congruence | reflexivity]. Qed.

Lemma lower_digit (c : ascii) : is_digit c = true -> lower c = c.
Proof. destruct c as [[] [] [] [] [] [] [] []]; try discriminate; reflexivity. Qed.

Lemma special_digit (c : ascii) (s : string) :
  is_digit c = true -> special (String c s) = None.
Proof.
  intros Hc. unfold special.
  rewrite (digit_not c "+" Hc eq_refl), (digit_not c "-" Hc eq_refl),
    (digit_not c "i" Hc eq_refl), (digit_not c "I" Hc eq_refl),
    (digit_not c "n" Hc eq_refl), (digit_not c "N" Hc eq_refl).
  reflexivity.
Qed.

Lemma read_digits_run (ds rest : string) :
  string_forall is_digit ds = true ->
  forall st : digits,
    0 <= nd st -> (nd st = 0 -> mant st = 0) ->
    exists nd' dp',
      read_digits false st (ds +++ rest)
      = read_digits false
          (mkDigits (digits_value_from (mant st) ds) nd' dp' (sawdot st)
                    (sawdigits st || negb (String.eqb ds "")) (underscores st))
          rest
      /\ 0 <= nd'
      /\ (nd' = 0 -> digits_value_from (mant st) ds = 0)
      /\ dp' - nd' = dp st - nd st - Z.of_nat (String.length ds).
Proof.
  induction ds as [| c ds IH]; intros Hall st Hnd Hz.
  - exists (nd st), (dp st). cbn [append digits_value_from String.eqb negb String.length].
    rewrite orb_false_r. destruct st; cbn. repeat split; auto; lia.
  - cbn [string_forall] in Hall. apply andb_prop in Hall as [Hc Hds].
    cbn [append read_digits digits_value_from]. rewrite Hc.
    rewrite (digit_not c "_" Hc eq_refl), (digit_not c "." Hc eq_refl).
    destruct (Ascii.eqb_spec c "0") as [-> | Hc0]; cbn [andb].
    + destruct (Z.eqb_spec (nd st) 0) as [Hnd0 | Hnd0].
      * destruct (IH Hds (mkDigits (mant st) (nd st) (dp st - 1) (sawdot st) true
                                   (underscores st)) Hnd Hz)
          as (nd' & dp' & E & H1 & H2 & H3).
        cbn [mant nd dp sawdot sawdigits underscores] in *.
        exists nd', dp'. rewrite E, (Hz Hnd0). change (digit_val "0") with 0.
        cbn [String.eqb negb String.length]. rewrite orb_true_r.
        rewrite (Hz Hnd0) in H2. repeat split; auto; lia.
      * destruct (IH Hds (mkDigits (mant st * 10 + digit_val "0") (nd st + 1) (dp st)
                                   (sawdot st) true (underscores st)))
          as (nd' & dp' & E & H1 & H2 & H3); cbn [mant nd dp]; try lia.
        cbn [mant nd dp sawdot sawdigits underscores] in *.
        exists nd', dp'. rewrite E.
        cbn [String.eqb negb String.length]. rewrite orb_true_r.
        repeat split; auto; lia.
    + destruct (IH Hds (mkDigits (mant st * 10 + digit_val c) (nd st + 1) (dp st)
                                 (sawdot st) true (underscores st)))
        as (nd' & dp' & E & H1 & H2 & H3); cbn [mant nd dp]; try lia.
      cbn [mant nd dp sawdot sawdigits underscores] in *.
      exists nd', dp'. rewrite E.
      cbn [String.eqb negb String.length]. rewrite orb_true_r.
      repeat split; auto; lia.
Qed.

Lemma read_digits_dot (st : digits) (rest : string) :
  sawdot st = false ->
  read_digits false st (String "." rest)
  = read_digits false
      (mkDigits (mant st) (nd st) (nd st) true (sawdigits st) (underscores st)) rest.
Proof. intros H. cbn [read_digits]. now rewrite H. Qed.

Lemma readFloat_decimal (s : string) :
  decimal_ok s = true ->
  readFloat s
  = Some (false, cents s, if cents s =? 0 then 0 else -2, false, "").
Proof.
  intros H. apply decimal_ok_shape in H as (ds & a & b & -> & Hne & Hds & Ha & Hb).
  destruct (read_digits_run ds (String "." (String a (String b ""))) Hds
              (mkDigits 0 0 0 false false false))
    as (nd1 & dp1 & E1 & Hnd1 & Hz1 & _); cbn [nd mant]; try lia.
  cbn [mant nd dp sawdot sawdigits underscores orb] in E1.
  rewrite read_digits_dot in E1 by reflexivity.
  cbn [sawdot mant nd sawdigits underscores] in E1.
  destruct (read_digits_run (String a (String b "")) ""
              ltac:(cbn; now rewrite Ha, Hb)
              (mkDigits (digits_value_from 0 ds) nd1 nd1 true
                        (negb (String.eqb ds "")) false))
    as (nd2 & dp2 & E2 & Hnd2 & Hz2 & Hdp); cbn [nd mant]; auto.
  cbn [mant nd dp sawdot sawdigits underscores String.eqb negb String.length] in E2, Hdp, Hz2.
  rewrite orb_true_r in E2.
  change (String a (String b "") +++ "") with (String a (String b "")) in E2.
  rewrite E2 in E1. clear E2.
  change (read_digits false ?st "") with (st, "") in E1.
  assert (Hcents : cents (ds +++ String "." (String a (String b "")))
                   = digits_value_from (digits_value_from 0 ds) (String a (String b ""))).
  { unfold cents. rewrite digits_value_from_app. reflexivity. }
  rewrite Hcents.
  destruct ds as [| c0 ds0]; [congruence |].
  cbn [string_forall] in Hds. apply andb_prop in Hds as [Hc0 Hds0].
  unfold readFloat.
  assert (Hhex :
    match String c0 ds0 +++ String "." (String a (String b "")) with
    | String z (String x (String c r)) =>
        if Ascii.eqb z "0" && Ascii.eqb (lower x) "x" then (true, String c r)
        else (false, String c0 ds0 +++ String "." (String a (String b "")))
    | _ => (false, String c0 ds0 +++ String "." (String a (String b "")))
    end = (false, String c0 ds0 +++ String "." (String a (String b "")))).
  { destruct ds0 as [| x [| y ds2]]; cbn [append].
    - now rewrite andb_false_r.
    - cbn [string_forall] in Hds0. apply andb_prop in Hds0 as [Hx _].
      now rewrite (lower_digit x Hx), (digit_not x "x" Hx eq_refl), andb_false_r.
    - cbn [string_forall] in Hds0. apply andb_prop in Hds0 as [Hx _].
      now rewrite (lower_digit x Hx), (digit_not x "x" Hx eq_refl), andb_false_r. }
  cbn [append] in Hhex, E1 |- *.
  rewrite (digit_not c0 "+" Hc0 eq_refl), (digit_not c0 "-" Hc0 eq_refl).
  rewrite Hhex, E1.
  cbn [sawdigits negb sawdot dp nd mant underscores andb].
  replace (dp2 - nd2) with (-2) by lia.
  reflexivity.
Qed.

Lemma ParseFloat_decimal (s : string) :
  decimal_ok s = true ->
  ParseFloat s
  = (decimal_float s,
     match decimal_float s with
     | S754_infinity _ => Some ErrRange
     | _ => None
     end).
Proof.
  intros H. unfold ParseFloat. rewrite (readFloat_decimal s H).
  destruct (decimal_ok_shape s H) as (ds & a & b & E & Hne & Hds & _).
  destruct ds as [| c0 ds0]; [congruence |].
  cbn [string_forall] in Hds. apply andb_prop in Hds as [Hc0 _].
  rewrite E at 1. cbn [append]. rewrite (special_digit c0 _ Hc0).
  cbn [String.eqb negb].
  unfold decimal_float, float_of_literal.
  destruct (Z.eqb_spec (cents s) 0) as [-> | Hnz]; [reflexivity |].
  change (0 <=? -2) with false. change (10 ^ (- (-2))) with 100. cbv iota.
  destruct (of_ratio false (cents s) 100); reflexivity.
Qed.

(* ================================================================== *)
(** ** The library models on known values *)

(** The binary64 model on known values: 0.1, 0.2 and 1e23 round as IEEE
    754 prescribes, the largest finite value is kept and the next decimal
    overflows, and [%.2f] rounds the stored value, not the numeral. *)
Lemma float64_known_values :
  fst (ParseFloat "0.1") = S754_finite false 7205759403792794 (-56)
  /\ const_0_2 = S754_finite false 7205759403792794 (-55)
  /\ const_0_25 = S754_finite false 4503599627370496 (-54)
  /\ fst (ParseFloat "1e23") = S754_finite false 5960464477539062 24
  /\ ParseFloat "1.7976931348623157e308"
     = (S754_finite false 9007199254740991 971, None)
  /\ ParseFloat "1.7976931348623159e308" = (S754_infinity false, Some ErrRange)
  /\ fst (ParseFloat "4.9e-324") = S754_finite false 1 (-1074)
  /\ fst (ParseFloat "0x1p-2") = const_0_25
  /\ map (fun s => fixed2 (fst (ParseFloat s))) ["2.675"; "0.125"; "0.375"; "-0"]
     = ["2.67"; "0.12"; "0.38"; "-0.00"].
Proof. repeat split; vm_compute; reflexivity. Qed.

Lemma strip_prefix_length (p l l' : list ascii) :
  strip_prefix p l = Some l' -> List.length l = (List.length p + List.length l')%nat.
Proof.
  revert l. induction p as [| a p IH]; intros l; cbn [strip_prefix].
  - intros [= ->]. reflexivity.
  - destruct l as [| b l]; [discriminate |].
    destruct (Ascii.eqb a b); [| discriminate].
    intros H. apply IH in H. cbn [List.length]. lia.
Qed.

Lemma strip_space_shorter (encs : list (list ascii)) (l l' : list ascii) :
  Forall (fun p => p <> []) encs ->
  strip_space encs l = Some l' -> (List.length l' < List.length l)%nat.
Proof.
  induction 1 as [| p encs Hp _ IH]; cbn [strip_space]; [discriminate |].
  destruct (strip_prefix p l) as [l1 |] eqn:E; [| exact IH].
  intros [= ->]. apply strip_prefix_length in E.
  destruct p; [congruence | cbn [List.length] in E; lia].
Qed.

(** The fuel of [trim_left] is enough: what it returns starts with no
    white-space rune. *)
Lemma trim_left_done (encs : list (list ascii)) :
  Forall (fun p => p <> []) encs ->
  forall (fuel : nat) (l : list ascii),
    (List.length l <= fuel)%nat ->
    strip_space encs (trim_left fuel encs l) = None.
Proof.
  intros Hne. induction fuel as [| fuel IH]; intros l Hlen; cbn [trim_left].
  - destruct l; [| cbn in Hlen; lia].
    clear Hlen. induction Hne as [| p encs Hp _ IH]; [reflexivity |].
    cbn [strip_space]. destruct p; [congruence | exact IH].
  - destruct (strip_space encs l) as [l' |] eqn:E; [| exact E].
    apply IH. apply (strip_space_shorter _ _ _ Hne) in E. lia.
Qed.

Lemma space_encodings_nonempty :
  Forall (fun p => p <> []) space_encodings
  /\ Forall (fun p => p <> []) (map (@rev ascii) space_encodings).
Proof. split; repeat (constructor; [discriminate |]); constructor. Qed.

(** Both passes of [TrimSpace] run to the end: the fuel given is the
    length of the input. *)
Lemma TrimSpace_fuel_suffices (l : list ascii) :
  strip_space space_encodings
    (trim_left (List.length l) space_encodings l) = None
  /\ strip_space (map (@rev ascii) space_encodings)
       (trim_left (List.length l) (map (@rev ascii) space_encodings) l) = None.
Proof.
  destruct space_encodings_nonempty as [H1 H2].
  split; apply trim_left_done; auto.
Qed.

(* ================================================================== *)
(** ** The reference payload *)

(** C1: the reference receipt (retailer Target, the five items, total
    35.35, date 2022-01-01, time 13:01) passes validation and
    [calculatePoints] returns exactly 28 points with the five breakdown
    lines of the documentation: 6 for the retailer's alphanumerics, 10 for
    2 pairs of items, 3 for the 18 characters of Emils Cheese Pizza, 3 for
    the 24 characters of the trimmed Klarbrunn description, 6 for the odd
    day; the round-dollar, quarter-multiple and time rules give nothing. *)
Theorem C1_reference_receipt_28_points (unrepresentable : float64 -> Z) :
  validateReceipt reference = None
  /\ calculatePoints unrepresentable reference
     = (28,
        [ "6 points - retailer name (Target) has 6 alphanumeric characters";
          "10 points - 5 items (2 pairs @ 5 points each)";
          "3 points - " +++ quote +++ "Emils Cheese Pizza" +++ quote
            +++ " is 18 characters (a multiple of 3), item price 12.25 * 0.2 = 2.45 which is rounded to: 3 points";
          "3 points - " +++ quote +++ "Klarbrunn 12-PK 12 FL OZ" +++ quote
            +++ " is 24 characters (a multiple of 3), item price 12.00 * 0.2 = 2.40 which is rounded to: 3 points";
          "6 points - purchase day is odd" ])
  /\ rule1_points reference = 6
  /\ rule4_points reference = 10
  /\ map trimmed_length (Items reference) = [17; 18; 20; 20; 24]
  /\ map (item_points unrepresentable) (Items reference) = [0; 3; 0; 0; 3]
  /\ odd_day reference = true
  /\ round_dollar unrepresentable (total_value reference) = false
  /\ quarter_multiple (total_value reference) = false
  /\ afternoon reference = false.
Proof. repeat split; vm_compute; reflexivity. Qed.

(* ================================================================== *)
(** ** Points against the breakdown *)

(** C2 (amended): for every validated receipt, each line of the breakdown
    starts with a token [{n} points], and the integer returned by
    [calculatePoints] is the sum of these [n] reduced to the 64-bit range
    of [int] (two's-complement wrap-around); it is that sum itself whenever
    the sum fits an [int]. *)
Theorem C2_points_are_wrapped_sum_of_lines (unrepresentable : float64 -> Z) (r : Receipt) :
  validateReceipt r = None ->
  exists total : Z,
    sum_leading (snd (calculatePoints unrepresentable r)) = Some total
    /\ fst (calculatePoints unrepresentable r) = GoInt.wrap total
    /\ (GoInt.min_int <= total <= GoInt.max_int ->
        fst (calculatePoints unrepresentable r) = total).
Proof.
  intros _. exists (raw_points unrepresentable r).
  rewrite calculatePoints_closed. cbn [fst snd].
  split; [apply sum_leading_all_lines | split; [reflexivity | apply wrap_small]].
Qed.

Lemma C2_witness :
  validateReceipt reference = None
  /\ exists total : Z,
       sum_leading (snd (calculatePoints amd64_unrepresentable reference)) = Some total
       /\ fst (calculatePoints amd64_unrepresentable reference) = GoInt.wrap total
       /\ (GoInt.min_int <= total <= GoInt.max_int ->
           fst (calculatePoints amd64_unrepresentable reference) = total).
Proof.
  split; [vm_compute; reflexivity |].
  apply C2_points_are_wrapped_sum_of_lines. vm_compute; reflexivity.
Defined.

(** A validated receipt with two items of price 5 * 2^62: each earns 2^62
    points, every conversion is in range, and the sum passes the largest
    [int]; the points returned are negative while the lines add up to
    2^63 + 17. *)
Lemma C2_counterexample :
  validateReceipt two_huge_items = None
  /\ (forall unrepresentable,
        fst (calculatePoints unrepresentable two_huge_items) = - 2 ^ 63 + 17
        /\ sum_leading (snd (calculatePoints unrepresentable two_huge_items))
           = Some (2 ^ 63 + 17)).
Proof. split; [| intros; split]; vm_compute; reflexivity. Qed.

(* ================================================================== *)
(** ** Rule 5 *)




(* ================================================================== *)
(** ** Rules 2 and 3 *)

(** C4: for a validated receipt the round-dollar and quarter-multiple
    rules look only at the [float64] value that [ParseFloat] gives for the
    total, which is the binary64 value nearest to the decimal; a total of
    10.00 earns both (50 and 25 points, both lines), a total of 35.35
    earns neither. *)
Theorem C4_total_rules_on_parsed_value (unrepresentable : float64 -> Z) (r : Receipt) :
  validateReceipt r = None ->
  calculatePoints unrepresentable r
  = (GoInt.wrap
       (rule1_points r
        + total_points unrepresentable (fst (ParseFloat (Total r)))
        + (rule4_points r + sumZ (map (item_points unrepresentable) (Items r))
           + worth (odd_day r) 6 + worth (afternoon r) 10)),
     [rule1_line r]
     ++ total_lines unrepresentable (fst (ParseFloat (Total r)))
     ++ ([rule4_line r] ++ flat_map (item_lines unrepresentable) (Items r)
         ++ when (odd_day r) rule6_line ++ when (afternoon r) rule7_line))
  /\ fst (ParseFloat (Total r)) = decimal_float (Total r)
  /\ (Total r = "10.00" ->
      total_points unrepresentable (fst (ParseFloat (Total r))) = 50 + 25
      /\ total_lines unrepresentable (fst (ParseFloat (Total r)))
         = [rule2_line; rule3_line])
  /\ (Total r = "35.35" ->
      total_points unrepresentable (fst (ParseFloat (Total r))) = 0
      /\ total_lines unrepresentable (fst (ParseFloat (Total r))) = []).
Proof.
  intros Hvalid.
  split; [| split; [| split; intros ->; split; vm_compute; reflexivity]].
  - rewrite calculatePoints_closed. unfold raw_points, all_lines, total_value.
    f_equal. f_equal. lia.
  - destruct (validated_fields r Hvalid) as (_ & _ & _ & _ & _ & Htotal).
    now rewrite (ParseFloat_decimal _ Htotal).
Qed.

Lemma C4_witness :
  validateReceipt round_total = None
  /\ Total round_total = "10.00"
  /\ calculatePoints amd64_unrepresentable round_total
     = (103,
        [ rule1_line round_total; rule2_line; rule3_line; rule4_line round_total;
          item_line amd64_unrepresentable (mkItem "Emils Cheese Pizza" "12.25");
          item_line amd64_unrepresentable
                    (mkItem "   Klarbrunn 12-PK 12 FL OZ  " "12.00");
          rule6_line ]).
Proof.
  split; [vm_compute; reflexivity | split; [reflexivity |]].
  rewrite (proj1 (C4_total_rules_on_parsed_value amd64_unrepresentable round_total eq_refl)).
  vm_compute; reflexivity.
Defined.

(* ================================================================== *)
(** ** The retailer check *)

(** C5 (amended): [validateReceipt] returns the invalid-retailer reason
    exactly when the retailer is empty or holds a character outside the
    class of the pattern, which is the set [A-Za-z0-9 \-&] of the
    specification together with the underscore, the tab, the line feed,
    the form feed and the carriage return; every non-empty retailer made
    of characters of the set of the specification passes the retailer
    check. *)
Theorem C5_invalid_retailer_iff (r : Receipt) :
  (validateReceipt r = Some invalid_retailer
   <-> Retailer r = ""
       \/ exists c, string_In c (Retailer r) /\ retailer_class c = false)
  /\ (forall c, retailer_class c = spec_retailer_char c || extra_retailer_char c)
  /\ (Retailer r <> "" ->
      string_forall spec_retailer_char (Retailer r) = true ->
      validateReceipt r <> Some invalid_retailer).
Proof.
  split; [| split; [exact retailer_class_split |]].
  - rewrite validateReceipt_invalid_retailer. apply retailer_ok_iff.
  - intros Hne Hall H.
    apply validateReceipt_invalid_retailer, retailer_ok_iff in H.
    destruct H as [H | (c & Hin & Hc)]; [contradiction |].
    assert (Hf : string_forall spec_retailer_char (Retailer r) = false).
    { apply string_forall_false. exists c. split; [exact Hin |].
      rewrite retailer_class_split in Hc. now apply orb_false_elim in Hc. }
    congruence.
Qed.

Lemma C5_witness :
  validateReceipt (with_retailer "M&M Corner Market" reference)
  <> Some invalid_retailer
  /\ validateReceipt (with_retailer "M&M Corner Market" reference) = None.
Proof.
  split; [| vm_compute; reflexivity].
  apply (C5_invalid_retailer_iff (with_retailer "M&M Corner Market" reference));
    [discriminate | vm_compute; reflexivity].
Defined.

(** A retailer with an underscore, which is outside [A-Za-z0-9 \-&],
    passes the retailer check and the whole validation. *)
Lemma C5_counterexample :
  validateReceipt (with_retailer "a_b" reference) = None
  /\ string_forall spec_retailer_char "a_b" = false
  /\ string_In "_" "a_b".
Proof. repeat split; vm_compute; auto. Qed.

(* ================================================================== *)
(** ** The validator fails fast *)

(** C6: [validateReceipt] fails fast on the first violated rule, in the
    order retailer, purchaseDate, purchaseTime, empty items, then item by
    item the description before the price, then the total; the seven
    reasons are pairwise distinct.  It rejects an empty retailer, a
    retailer with a dollar sign, the date 2022-13-01, the time 25:00, an
    empty list of items, the item price 6.5 and the total 35. *)
Theorem C6_validation_fails_fast_in_order :
  (forall r : Receipt, validateReceipt r = first_violation (checks r))
  /\ NoDup reasons
  /\ validateReceipt (with_retailer "" reference) = Some invalid_retailer
  /\ validateReceipt (with_retailer "Target$" reference) = Some invalid_retailer
  /\ validateReceipt (with_date "2022-13-01" reference) = Some invalid_date
  /\ validateReceipt (with_time "25:00" reference) = Some invalid_time
  /\ validateReceipt (with_items [] reference) = Some empty_items
  /\ validateReceipt (with_items [mkItem "Gatorade" "6.5"] reference)
     = Some invalid_price
  /\ validateReceipt (with_total "35" reference) = Some invalid_total.
Proof.
  split; [exact validateReceipt_first_violation |].
  split; [| repeat split; vm_compute; reflexivity].
  unfold reasons.
  repeat (constructor; [cbn [In]; intuition discriminate |]).
  constructor.
Qed.

(* ================================================================== *)
(** ** The shape of the breakdown *)

(** C7: for every validated receipt the breakdown is, in this order, the
    rule 1 line, the rule 2 line when the total is a round amount, the
    rule 3 line when it is a multiple of 0.25, the rule 4 line, one rule 5
    line per qualifying item in item order, the rule 6 line when the day
    is odd, the rule 7 line when the hour is 14 or 15.  The lines of rules
    1 and 4 are always there, whatever their points. *)
Theorem C7_breakdown_in_rule_order (unrepresentable : float64 -> Z) (r : Receipt) :
  validateReceipt r = None ->
  snd (calculatePoints unrepresentable r)
  = [rule1_line r]
    ++ when (round_dollar unrepresentable (total_value r)) rule2_line
    ++ when (quarter_multiple (total_value r)) rule3_line
    ++ [rule4_line r]
    ++ flat_map (fun it => when (item_qualifies it) (item_line unrepresentable it))
                (Items r)
    ++ when (odd_day r) rule6_line
    ++ when (afternoon r) rule7_line
  /\ In (rule1_line r) (snd (calculatePoints unrepresentable r))
  /\ In (rule4_line r) (snd (calculatePoints unrepresentable r)).
Proof.
  intros _. rewrite calculatePoints_closed. cbn [snd].
  unfold all_lines, total_lines. rewrite <- !app_assoc.
  split; [reflexivity | split].
  - now left.
  - apply in_or_app. right. apply in_or_app. right. apply in_or_app. right.
    now left.
Qed.

Lemma C7_witness :
  validateReceipt bare = None
  /\ snd (calculatePoints amd64_unrepresentable bare)
     = [ "0 points - retailer name (&) has 0 alphanumeric characters";
         "0 points - 1 items (0 pairs @ 5 points each)" ].
Proof.
  split; [vm_compute; reflexivity |].
  rewrite (proj1 (C7_breakdown_in_rule_order amd64_unrepresentable bare eq_refl)).
  vm_compute; reflexivity.
Defined.

(* ================================================================== *)
(** ** The time check *)

(** C8: the time check lets a one-digit hour through.  On the reference
    payload with purchaseTime 9:30, [validateReceipt] returns no error,
    although 9:30 is not written HH:MM, the format that its own reason
    for this check names; the date check next to it refuses the
    one-digit month of 2022-1-01.  The check accepts every string
    written HH:MM with an hour up to 23 and a minute up to 59, and what
    it accepts besides is written H:MM, with a one-digit hour: the
    reason is returned, once the retailer and the date have passed,
    exactly for the strings of neither form. *)
Theorem C8_one_digit_hour_accepted :
  validateReceipt (with_time "9:30" reference) = None
  /\ is_HH_MM "9:30" = false
  /\ invalid_time = errors_New "purchaseTime must be in HH:mm 24-hour format"
  /\ validateReceipt (with_date "2022-1-01" reference) = Some invalid_date
  /\ (forall s, is_HH_MM s = true -> time_ok s = true)
  /\ (forall s, time_ok s = true -> is_HH_MM s = false -> is_H_MM s = true)
  /\ (forall r, validateReceipt r = Some invalid_time
                <-> retailer_ok (Retailer r) = true
                    /\ date_ok (PurchaseDate r) = true
                    /\ is_HH_MM (PurchaseTime r) || is_H_MM (PurchaseTime r) = false).
Proof.
  split; [vm_compute; reflexivity |].
  split; [vm_compute; reflexivity |].
  split; [reflexivity |].
  split; [vm_compute; reflexivity |].
  split; [| split].
  - intros s H. rewrite time_ok_spec, H. reflexivity.
  - intros s H1 H2. rewrite time_ok_spec, H2 in H1. exact H1.
  - intros r. rewrite validateReceipt_invalid_time, time_ok_spec. reflexivity.
Qed.

(* ================================================================== *)
(** ** Determinism *)

(** C9: [calculatePoints] is a function of the retailer, the date, the
    time, the items and the total of the receipt: two validated receipts
    that agree on these fields (all the more two identical receipts) get
    the same points and the same breakdown, line for line. *)
Theorem C9_calculatePoints_deterministic
  (unrepresentable : float64 -> Z) (r1 r2 : Receipt) :
  validateReceipt r1 = None ->
  Retailer r1 = Retailer r2 ->
  PurchaseDate r1 = PurchaseDate r2 ->
  PurchaseTime r1 = PurchaseTime r2 ->
  Items r1 = Items r2 ->
  Total r1 = Total r2 ->
  calculatePoints unrepresentable r1 = calculatePoints unrepresentable r2.
Proof.
  intros _ Hr Hd Ht Hi Htot. unfold calculatePoints.
  rewrite Hr, Hd, Ht, Hi, Htot. reflexivity.
Qed.

Lemma C9_witness :
  validateReceipt reference = None
  /\ calculatePoints amd64_unrepresentable reference
     = calculatePoints amd64_unrepresentable stored_reference.
Proof.
  split; [vm_compute; reflexivity |].
  apply C9_calculatePoints_deterministic; vm_compute; reflexivity.
Defined.

(* ================================================================== *)
(** ** Receipts that were not validated *)

(** C10 (amended): [calculatePoints] gives a result for every receipt,
    validated or not; the errors of the four parsers are dropped.  A total
    that [ParseFloat] refuses as ill-formed counts as 0, so that the
    round-dollar and the quarter-multiple rules both fire and put their
    two lines and 75 points in the result; a price refused the same way
    earns 0 points, a date that does not parse counts as an odd day and a
    time that does not parse as hour 0.  The points returned are 75 plus
    the contributions of the other rules, reduced to the range of [int];
    they are at least 75 when those contributions are non-negative and the
    sum fits an [int].  (A total that [ParseFloat] refuses as out of range
    counts as an infinity instead, and is no multiple of 0.25.) *)
Theorem C10_unparseable_total_scores_75 (unrepresentable : float64 -> Z) (r : Receipt) :
  snd (ParseFloat (Total r)) = Some ErrSyntax ->
  total_value r = zero
  /\ total_lines unrepresentable (total_value r) = [rule2_line; rule3_line]
  /\ calculatePoints unrepresentable r
     = (GoInt.wrap (50 + 25 + other_points unrepresentable r),
        [rule1_line r; rule2_line; rule3_line; rule4_line r]
        ++ flat_map (item_lines unrepresentable) (Items r)
        ++ when (odd_day r) rule6_line ++ when (afternoon r) rule7_line)
  /\ (0 <= other_points unrepresentable r <= GoInt.max_int - 75 ->
      75 <= fst (calculatePoints unrepresentable r))
  /\ (forall price, snd (ParseFloat price) = Some ErrSyntax ->
                    price_points unrepresentable price = 0)
  /\ (snd (Parse_date (PurchaseDate r)) = Some errParse -> odd_day r = true)
  /\ (snd (Parse_clock (PurchaseTime r)) = Some errParse -> afternoon r = false)
  /\ (forall total, snd (ParseFloat total) = Some ErrRange ->
                    quarter_multiple (fst (ParseFloat total)) = false).
Proof.
  intros Herr. apply ParseFloat_syntax_error in Herr.
  assert (Hclosed : calculatePoints unrepresentable r
     = (GoInt.wrap (50 + 25 + other_points unrepresentable r),
        [rule1_line r; rule2_line; rule3_line; rule4_line r]
        ++ flat_map (item_lines unrepresentable) (Items r)
        ++ when (odd_day r) rule6_line ++ when (afternoon r) rule7_line)).
  { rewrite calculatePoints_closed.
    unfold raw_points, all_lines, other_points, total_value. rewrite Herr.
    change (total_points unrepresentable zero) with 75.
    change (total_lines unrepresentable zero) with [rule2_line; rule3_line].
    f_equal. f_equal. lia. }
  unfold total_value. rewrite Herr.
  split; [reflexivity | split; [reflexivity | split; [exact Hclosed |]]].
  split; [| split; [| split; [| split]]].
  - intros Hrange. rewrite Hclosed. cbn [fst].
    rewrite wrap_small; unfold GoInt.min_int, GoInt.max_int in *; lia.
  - intros price Hprice. unfold price_points.
    rewrite (ParseFloat_syntax_error _ Hprice). reflexivity.
  - unfold odd_day, Parse_date. intros H.
    repeat match type of H with
           | snd (match ?x with _ => _ end) = _ => destruct x
           | snd (let '(_, _) := ?x in _) = _ => destruct x
           | snd (if ?x then _ else _) = _ => destruct x
           end; try reflexivity; discriminate H.
  - unfold afternoon, Parse_clock. intros H.
    repeat match type of H with
           | snd (match ?x with _ => _ end) = _ => destruct x
           | snd (let '(_, _) := ?x in _) = _ => destruct x
           | snd (if ?x then _ else _) = _ => destruct x
           end; try reflexivity; discriminate H.
  - intros total Htotal.
    destruct (ParseFloat_range_error _ Htotal) as (neg & ->). reflexivity.
Qed.

Lemma C10_witness :
  snd (ParseFloat (Total (with_total "abc" reference))) = Some ErrSyntax
  /\ calculatePoints amd64_unrepresentable (with_total "abc" reference)
     = (103,
        [ rule1_line reference; rule2_line; rule3_line; rule4_line reference;
          item_line amd64_unrepresentable (mkItem "Emils Cheese Pizza" "12.25");
          item_line amd64_unrepresentable
                    (mkItem "   Klarbrunn 12-PK 12 FL OZ  " "12.00");
          rule6_line ]).
Proof.
  split; [vm_compute; reflexivity |].
  destruct (C10_unparseable_total_scores_75 amd64_unrepresentable
              (with_total "abc" reference) eq_refl) as (_ & _ & H & _).
  rewrite H. vm_compute; reflexivity.
Defined.

(** A receipt whose total is ill-formed and whose item has a negative
    price: both rules on the total fire, and the points are below 75. *)
Lemma C10_counterexample :
  snd (ParseFloat (Total unparseable_total)) = Some ErrSyntax
  /\ (forall unrepresentable,
        calculatePoints unrepresentable unparseable_total
        = (-113,
           [ "6 points - retailer name (Target) has 6 alphanumeric characters";
             rule2_line; rule3_line;
             "0 points - 1 items (0 pairs @ 5 points each)";
             "-200 points - " +++ quote +++ "abc" +++ quote
               +++ " is 3 characters (a multiple of 3), item price -1000.00 * 0.2 = -200.00 which is rounded to: -200 points";
             rule6_line ]))
  /\ -113 < 75.
Proof. repeat split; intros; vm_compute; reflexivity. Qed.

(* ================================================================== *)
(** ** Prefixes and suffixes *)

Lemma length_append (a b : string) :
  String.length (a +++ b) = (String.length a + String.length b)%nat.
Proof. induction a as [| c a IH]; cbn; [reflexivity | now rewrite IH]. Qed.

Lemma substring_all (s : string) : String.substring 0 (String.length s) s = s.
Proof. induction s as [| c s IH]; cbn; [reflexivity | now rewrite IH]. Qed.

Lemma substring_append_l (a b : string) :
  String.substring 0 (String.length a) (a +++ b) = a.
Proof.
  induction a as [| c a IH]; cbn; [now destruct b | now rewrite IH].
Qed.

Lemma substring_append_r (a b : string) (n : nat) :
  String.substring (String.length a) n (a +++ b) = String.substring 0 n b.
Proof. induction a as [| c a IH]; cbn; [reflexivity | exact IH]. Qed.

Lemma slice_suffix (a b : string) :
  slice (a +++ b) (String.length (a +++ b) - String.length b) (String.length (a +++ b)) = b.
Proof.
  unfold slice. rewrite length_append.
  replace (String.length a + String.length b - String.length b)%nat
    with (String.length a) by lia.
  replace (String.length a + String.length b - String.length a)%nat
    with (String.length b) by lia.
  rewrite substring_append_r. apply substring_all.
Qed.

Lemma HasPrefix_append (p s : string) : HasPrefix (p +++ s) p = true.
Proof.
  unfold HasPrefix, slice. rewrite length_append, Nat.sub_0_r, substring_append_l.
  rewrite String.eqb_refl, andb_true_r. apply Nat.leb_le. lia.
Qed.

Lemma TrimPrefix_append (p s : string) : TrimPrefix (p +++ s) p = s.
Proof.
  unfold TrimPrefix. rewrite HasPrefix_append. unfold slice.
  rewrite length_append, substring_append_r.
  replace (String.length p + String.length s - String.length p)%nat
    with (String.length s) by lia.
  apply substring_all.
Qed.

Lemma HasSuffix_append (s x : string) : HasSuffix (s +++ x) x = true.
Proof.
  unfold HasSuffix. rewrite slice_suffix, String.eqb_refl, andb_true_r.
  apply Nat.leb_le. rewrite length_append. lia.
Qed.

Lemma TrimSuffix_append (s x : string) : TrimSuffix (s +++ x) x = s.
Proof.
  unfold TrimSuffix. rewrite HasSuffix_append. unfold slice.
  rewrite length_append, Nat.sub_0_r.
  replace (String.length s + String.length x - String.length x)%nat
    with (String.length s) by lia.
  apply substring_append_l.
Qed.

(** Two suffixes of the same length are both suffixes of [s] only if
    they are equal. *)
Lemma HasSuffix_other (s x y : string) :
  String.length x = String.length y -> x <> y ->
  HasSuffix (s +++ x) y = false.
Proof.
  intros Hlen Hne. unfold HasSuffix. rewrite <- Hlen, slice_suffix.
  apply String.eqb_neq in Hne. rewrite Hne. apply andb_false_r.
Qed.

Lemma append_assoc (a b c : string) : (a +++ b) +++ c = a +++ (b +++ c).
Proof. induction a as [| x a IH]; cbn; [reflexivity | now rewrite IH]. Qed.

(* ================================================================== *)
(** ** The handlers *)

(** [calculatePoints] and [validateReceipt] do not read the fields the
    handler fills in. *)
Lemma calculatePoints_input_fields (unrepresentable : float64 -> Z)
  (r : Receipt) (id : string) (points : Z) (breakdown : list string) :
  calculatePoints unrepresentable
    (mkReceipt id (Retailer r) (PurchaseDate r) (PurchaseTime r) (Items r)
               (Total r) points breakdown)
  = calculatePoints unrepresentable r.
Proof. reflexivity. Qed.

Section Handlers.

Variable unrepresentable : float64 -> Z.
Variable json_Decode : string -> option Receipt.
Variable uuid_Parse : string -> option error.

Lemma processReceipt_accepts (fresh : string) (receipts : Store) (r : Request)
  (receipt : Receipt) :
  Method r = "POST" ->
  json_Decode (Body r) = Some receipt ->
  validateReceipt receipt = None ->
  processReceipt unrepresentable json_Decode fresh receipts r
  = (json_OK (JsonObject [("id", JsonString fresh)]),
     map_set receipts fresh (scored unrepresentable fresh receipt)).
Proof.
  intros Hm Hd Hv. unfold processReceipt. rewrite Hm, Hd, Hv. cbn [String.eqb negb].
  change (Ascii.eqb "P" "P") with true. cbv iota.
  rewrite calculatePoints_input_fields.
  destruct (calculatePoints unrepresentable receipt) as [points breakdown] eqn:E.
  unfold scored. rewrite E. reflexivity.
Qed.

Lemma processReceipt_cases (fresh : string) (receipts : Store) (r : Request) :
  (Method r <> "POST"
   /\ processReceipt unrepresentable json_Decode fresh receipts r
      = (http_Error "Only POST method is allowed" 405, receipts))
  \/ (Method r = "POST" /\ json_Decode (Body r) = None
      /\ processReceipt unrepresentable json_Decode fresh receipts r
         = (http_Error "Invalid JSON format" 400, receipts))
  \/ (exists receipt err,
        Method r = "POST" /\ json_Decode (Body r) = Some receipt
        /\ validateReceipt receipt = Some err
        /\ processReceipt unrepresentable json_Decode fresh receipts r
           = (http_Error ("Invalid receipt: " +++ Error err) 400, receipts))
  \/ (exists receipt,
        Method r = "POST" /\ json_Decode (Body r) = Some receipt
        /\ validateReceipt receipt = None
        /\ processReceipt unrepresentable json_Decode fresh receipts r
           = (json_OK (JsonObject [("id", JsonString fresh)]),
              map_set receipts fresh (scored unrepresentable fresh receipt))).
Proof.
  destruct (String.eqb_spec (Method r) "POST") as [Hm | Hm].
  - right. destruct (json_Decode (Body r)) as [receipt |] eqn:Hd.
    + right. destruct (validateReceipt receipt) as [err |] eqn:Hv.
      * left. exists receipt, err. repeat split; auto.
        unfold processReceipt. now rewrite Hm, Hd, Hv.
      * right. exists receipt. repeat split; auto.
        now apply processReceipt_accepts.
    + left. repeat split; auto. unfold processReceipt. now rewrite Hm, Hd.
  - left. split; [exact Hm |]. unfold processReceipt.
    apply String.eqb_neq in Hm. now rewrite Hm.
Qed.

Lemma handleRequests_points (receipts : Store) (id body : string) :
  handleRequests uuid_Parse receipts (mkRequest "GET" (points_path id) body)
  = getPoints uuid_Parse receipts id.
Proof.
  unfold handleRequests, points_path. cbn [Method Path].
  change (negb (String.eqb "GET" "GET")) with false. cbv iota.
  rewrite TrimPrefix_append, HasSuffix_append, TrimSuffix_append. reflexivity.
Qed.

Lemma handleRequests_breakdown (receipts : Store) (id body : string) :
  handleRequests uuid_Parse receipts (mkRequest "GET" (breakdown_path id) body)
  = getBreakdown uuid_Parse receipts id.
Proof.
  unfold handleRequests, breakdown_path. cbn [Method Path].
  change (negb (String.eqb "GET" "GET")) with false. cbv iota.
  rewrite TrimPrefix_append.
  assert (Hno : HasSuffix (id +++ "/breakdown") "/points" = false).
  { change "/breakdown" with ("/br" +++ "eakdown"). rewrite <- append_assoc.
    apply HasSuffix_other; [reflexivity | discriminate]. }
  rewrite Hno, HasSuffix_append, TrimSuffix_append. reflexivity.
Qed.

End Handlers.

(* ================================================================== *)
(** ** The reasons of [validateReceipt] *)

Lemma checks_reasons (r : Receipt) (e : error) :
  In e (map snd (checks r)) -> In e reasons.
Proof.
  change (checks r) with (firstn 3 (checks r) ++ skipn 3 (checks r)).
  rewrite map_app. intros H. apply in_app_or in H as [H | H].
  - cbn in H. unfold reasons. cbn [In]. tauto.
  - apply later_reasons in H. unfold reasons. cbn [In] in *. tauto.
Qed.

Lemma validateReceipt_reasons (r : Receipt) (e : error) :
  validateReceipt r = Some e -> In e reasons.
Proof.
  rewrite validateReceipt_first_violation. intros H.
  apply (checks_reasons r). now apply first_violation_In.
Qed.

(* ================================================================== *)
(** ** Submitting and reading back *)

(** X1: a receipt that was accepted can be read back.  After
    [processReceipt] has answered a POST whose body decodes to a receipt
    that passes [validateReceipt], the answer carries the new identifier;
    if [isValidUUID] accepts that identifier, a GET on its points path
    then answers 200 with the points [calculatePoints] gives for the
    decoded receipt, and a GET on its breakdown path answers 200 with the
    same points and the breakdown. *)
Theorem X1_submit_then_read_back
  (unrepresentable : float64 -> Z) (json_Decode : string -> option Receipt)
  (uuid_Parse : string -> option error)
  (fresh : string) (receipts : Store) (r : Request) (receipt : Receipt) :
  Method r = "POST" ->
  json_Decode (Body r) = Some receipt ->
  validateReceipt receipt = None ->
  isValidUUID uuid_Parse fresh = true ->
  fst (processReceipt unrepresentable json_Decode fresh receipts r)
  = json_OK (JsonObject [("id", JsonString fresh)])
  /\ handleRequests uuid_Parse
       (snd (processReceipt unrepresentable json_Decode fresh receipts r))
       (mkRequest "GET" (points_path fresh) "")
     = json_OK (JsonObject
                  [("points", JsonInt (fst (calculatePoints unrepresentable receipt)))])
  /\ handleRequests uuid_Parse
       (snd (processReceipt unrepresentable json_Decode fresh receipts r))
       (mkRequest "GET" (breakdown_path fresh) "")
     = json_OK (JsonObject
                  [("breakdown",
                    JsonStrings (snd (calculatePoints unrepresentable receipt)));
                   ("points", JsonInt (fst (calculatePoints unrepresentable receipt)))]).
Proof.
  intros Hm Hd Hv Hid.
  rewrite (processReceipt_accepts _ _ _ _ _ _ Hm Hd Hv). cbn [fst snd].
  rewrite handleRequests_points, handleRequests_breakdown.
  unfold getPoints, getBreakdown, map_set. rewrite Hid, String.eqb_refl.
  repeat split.
Qed.

Lemma X1_witness :
  Method (post "reference") = "POST"
  /\ sample_Decode (Body (post "reference")) = Some reference
  /\ validateReceipt reference = None
  /\ isValidUUID canonical_Parse sample_id = true
  /\ handleRequests canonical_Parse one_receipt (get (points_path sample_id))
     = json_OK (JsonObject
                  [("points",
                    JsonInt (fst (calculatePoints amd64_unrepresentable reference)))]).
Proof.
  assert (Hv : validateReceipt reference = None) by (vm_compute; reflexivity).
  assert (Hid : isValidUUID canonical_Parse sample_id = true)
    by (vm_compute; reflexivity).
  split; [reflexivity | split; [reflexivity | split; [exact Hv | split; [exact Hid |]]]].
  exact (proj1 (proj2 (X1_submit_then_read_back amd64_unrepresentable sample_Decode
                         canonical_Parse sample_id make_map (post "reference")
                         reference eq_refl eq_refl Hv Hid))).
Defined.

(** X2: [processReceipt] stores nothing unless it answers 200.  Its
    status is 405 exactly for a method other than POST, 200 exactly for a
    POST whose body decodes to a receipt that passes [validateReceipt],
    and 400 in the other cases; with 405 or 400 the map is left as it
    was. *)
Theorem X2_processReceipt_stores_only_on_200
  (unrepresentable : float64 -> Z) (json_Decode : string -> option Receipt)
  (fresh : string) (receipts : Store) (r : Request) :
  (StatusCode (fst (processReceipt unrepresentable json_Decode fresh receipts r)) = 405
   <-> Method r <> "POST")
  /\ (StatusCode (fst (processReceipt unrepresentable json_Decode fresh receipts r)) = 200
      <-> Method r = "POST"
          /\ exists receipt, json_Decode (Body r) = Some receipt
                             /\ validateReceipt receipt = None)
  /\ In (StatusCode (fst (processReceipt unrepresentable json_Decode fresh receipts r)))
        [405; 400; 200]
  /\ (StatusCode (fst (processReceipt unrepresentable json_Decode fresh receipts r))
      <> 200 ->
      snd (processReceipt unrepresentable json_Decode fresh receipts r) = receipts).
Proof.
  destruct (processReceipt_cases unrepresentable json_Decode fresh receipts r)
    as [(Hm & ->) | [(Hm & Hd & ->) | [(rc & err & Hm & Hd & Hv & ->)
                                      | (rc & Hm & Hd & Hv & ->)]]];
    cbn [fst snd StatusCode http_Error json_OK In].
  - repeat split; auto; try discriminate; try tauto;
      try (intros (Hp & _); contradiction).
  - repeat split; auto; try discriminate; try congruence;
      try (intros (_ & rc & Hrc & _); congruence).
  - repeat split; auto; try discriminate; try congruence;
      try (intros (_ & rc' & Hrc & Hv'); congruence).
  - repeat split; auto; try discriminate; try congruence;
      try (now exists rc); try (intros H; contradiction).
Qed.

(** X3: the answers of [processReceipt].  Whatever the request, the
    answer is one of: 405 with the text on the method, 400 with the text
    on the JSON format, 400 with [Invalid receipt: ] followed by one of
    the seven reasons of [validateReceipt], or 200 with the new
    identifier under the key [id]. *)
Theorem X3_processReceipt_answers
  (unrepresentable : float64 -> Z) (json_Decode : string -> option Receipt)
  (fresh : string) (receipts : Store) (r : Request) :
  fst (processReceipt unrepresentable json_Decode fresh receipts r)
  = http_Error "Only POST method is allowed" 405
  \/ fst (processReceipt unrepresentable json_Decode fresh receipts r)
     = http_Error "Invalid JSON format" 400
  \/ (exists e, In e reasons
                /\ fst (processReceipt unrepresentable json_Decode fresh receipts r)
                   = http_Error ("Invalid receipt: " +++ Error e) 400)
  \/ fst (processReceipt unrepresentable json_Decode fresh receipts r)
     = json_OK (JsonObject [("id", JsonString fresh)]).
Proof.
  destruct (processReceipt_cases unrepresentable json_Decode fresh receipts r)
    as [(Hm & ->) | [(Hm & Hd & ->) | [(rc & err & Hm & Hd & Hv & ->)
                                      | (rc & Hm & Hd & Hv & ->)]]];
    cbn [fst]; auto.
  right. right. left. exists err. split; [| reflexivity].
  exact (validateReceipt_reasons rc err Hv).
Qed.

(** X4: a submission touches one key only.  Whatever the request, the
    map [processReceipt] leaves holds under every key other than the new
    identifier what it held before. *)
Theorem X4_processReceipt_keeps_other_keys
  (unrepresentable : float64 -> Z) (json_Decode : string -> option Receipt)
  (fresh key : string) (receipts : Store) (r : Request) :
  key <> fresh ->
  snd (processReceipt unrepresentable json_Decode fresh receipts r) key
  = receipts key.
Proof.
  intros Hkey.
  destruct (processReceipt_cases unrepresentable json_Decode fresh receipts r)
    as [(Hm & ->) | [(Hm & Hd & ->) | [(rc & err & Hm & Hd & Hv & ->)
                                      | (rc & Hm & Hd & Hv & ->)]]];
    cbn [snd]; try reflexivity.
  unfold map_set. apply String.eqb_neq in Hkey. now rewrite Hkey.
Qed.

Lemma X4_witness :
  other_id <> sample_id
  /\ snd (processReceipt amd64_unrepresentable sample_Decode sample_id one_receipt
                         (post "reference")) other_id
     = one_receipt other_id.
Proof.
  assert (Hne : other_id <> sample_id) by discriminate.
  split; [exact Hne |].
  exact (X4_processReceipt_keeps_other_keys amd64_unrepresentable sample_Decode
           sample_id other_id one_receipt (post "reference") Hne).
Defined.

Lemma reachable_well_scored
  (unrepresentable : float64 -> Z) (json_Decode : string -> option Receipt)
  (receipts : Store) :
  reachable unrepresentable json_Decode receipts ->
  forall (key : string) (receipt : Receipt),
    receipts key = Some receipt -> well_scored unrepresentable key receipt.
Proof.
  induction 1 as [| fresh receipts r _ IH]; intros key receipt.
  - discriminate.
  - destruct (processReceipt_cases unrepresentable json_Decode fresh receipts r)
      as [(Hm & ->) | [(Hm & Hd & ->) | [(rc & err & Hm & Hd & Hv & ->)
                                        | (rc & Hm & Hd & Hv & ->)]]];
      cbn [snd]; try apply IH.
    unfold map_set. destruct (String.eqb_spec key fresh) as [-> | Hne]; [| apply IH].
    intros [= <-]. unfold well_scored, scored. cbn [ID Points Breakdown].
    split; [reflexivity | split; [exact Hv |]].
    rewrite calculatePoints_input_fields. now destruct (calculatePoints _ rc).
Qed.

(** X5: the store holds scored, validated receipts only.  In every map
    the server reaches from the empty one by calls of [processReceipt],
    the receipt under a key has that key as identifier, passes
    [validateReceipt], and carries the points and the breakdown that
    [calculatePoints] gives for it. *)
Theorem X5_reachable_store_scored_and_valid
  (unrepresentable : float64 -> Z) (json_Decode : string -> option Receipt)
  (receipts : Store) (key : string) (receipt : Receipt) :
  reachable unrepresentable json_Decode receipts ->
  receipts key = Some receipt ->
  ID receipt = key
  /\ validateReceipt receipt = None
  /\ calculatePoints unrepresentable receipt = (Points receipt, Breakdown receipt).
Proof.
  intros Hreach Hkey.
  exact (reachable_well_scored _ _ receipts Hreach key receipt Hkey).
Qed.

Lemma X5_witness :
  reachable amd64_unrepresentable sample_Decode one_receipt
  /\ one_receipt sample_id = Some (scored amd64_unrepresentable sample_id reference)
  /\ validateReceipt (scored amd64_unrepresentable sample_id reference) = None.
Proof.
  assert (Hreach : reachable amd64_unrepresentable sample_Decode one_receipt)
    by (unfold one_receipt; apply reachable_process, reachable_start).
  assert (Hkey : one_receipt sample_id
                 = Some (scored amd64_unrepresentable sample_id reference))
    by (vm_compute; reflexivity).
  split; [exact Hreach | split; [exact Hkey |]].
  exact (proj1 (proj2 (X5_reachable_store_scored_and_valid amd64_unrepresentable
                         sample_Decode one_receipt sample_id
                         (scored amd64_unrepresentable sample_id reference)
                         Hreach Hkey))).
Defined.

(** X6: what the breakdown endpoint serves adds up.  When [getBreakdown]
    answers 200 on a reachable store, the breakdown has at least two
    lines, every line starts with its points, the points of the answer
    are the sum of these reduced to an [int], and [getPoints] answers the
    same points for the same identifier. *)
Theorem X6_served_breakdown_adds_up
  (unrepresentable : float64 -> Z) (json_Decode : string -> option Receipt)
  (uuid_Parse : string -> option error)
  (receipts : Store) (id : string) (points : Z) (breakdown : list string) :
  reachable unrepresentable json_Decode receipts ->
  getBreakdown uuid_Parse receipts id
  = json_OK (JsonObject [("breakdown", JsonStrings breakdown);
                         ("points", JsonInt points)]) ->
  (2 <= List.length breakdown)%nat
  /\ (exists total, sum_leading breakdown = Some total
                    /\ points = GoInt.wrap total)
  /\ getPoints uuid_Parse receipts id
     = json_OK (JsonObject [("points", JsonInt points)]).
Proof.
  intros Hreach. unfold getBreakdown, getPoints.
  destruct (isValidUUID uuid_Parse id); cbn [negb]; [| discriminate].
  destruct (receipts id) as [rc |] eqn:Hrc; [| discriminate].
  intros [= <- <-].
  destruct (reachable_well_scored _ _ receipts Hreach id rc Hrc)
    as (_ & _ & Hscore).
  rewrite calculatePoints_closed in Hscore. injection Hscore as Hp Hb.
  split; [| split; [| reflexivity]].
  - rewrite <- Hb. unfold all_lines. cbn [app List.length].
    rewrite !length_app. cbn [List.length]. lia.
  - exists (raw_points unrepresentable rc). rewrite <- Hb, <- Hp.
    split; [apply sum_leading_all_lines | reflexivity].
Qed.

Lemma X6_witness :
  reachable amd64_unrepresentable sample_Decode one_receipt
  /\ getBreakdown canonical_Parse one_receipt sample_id
     = json_OK (JsonObject
                  [("breakdown",
                    JsonStrings (snd (calculatePoints amd64_unrepresentable reference)));
                   ("points", JsonInt 28)])
  /\ getPoints canonical_Parse one_receipt sample_id
     = json_OK (JsonObject [("points", JsonInt 28)]).
Proof.
  assert (Hreach : reachable amd64_unrepresentable sample_Decode one_receipt)
    by (unfold one_receipt; apply reachable_process, reachable_start).
  assert (Hget : getBreakdown canonical_Parse one_receipt sample_id
                 = json_OK (JsonObject
                      [("breakdown",
                        JsonStrings (snd (calculatePoints amd64_unrepresentable
                                                          reference)));
                       ("points", JsonInt 28)]))
    by (vm_compute; reflexivity).
  split; [exact Hreach | split; [exact Hget |]].
  exact (proj2 (proj2 (X6_served_breakdown_adds_up amd64_unrepresentable sample_Decode
                         canonical_Parse one_receipt sample_id 28
                         (snd (calculatePoints amd64_unrepresentable reference))
                         Hreach Hget))).
Defined.

(** X7: the two read endpoints answer alike.  For every map and
    identifier [getPoints] and [getBreakdown] give the same status: 400
    exactly when [isValidUUID] refuses the identifier, 404 exactly when it
    accepts it and the map has no such key, 200 exactly when it accepts
    it and the key is there. *)
Theorem X7_read_endpoints_agree
  (uuid_Parse : string -> option error) (receipts : Store) (id : string) :
  StatusCode (getPoints uuid_Parse receipts id)
  = StatusCode (getBreakdown uuid_Parse receipts id)
  /\ (StatusCode (getPoints uuid_Parse receipts id) = 400
      <-> isValidUUID uuid_Parse id = false)
  /\ (StatusCode (getPoints uuid_Parse receipts id) = 404
      <-> isValidUUID uuid_Parse id = true /\ receipts id = None)
  /\ (StatusCode (getPoints uuid_Parse receipts id) = 200
      <-> isValidUUID uuid_Parse id = true
          /\ exists receipt, receipts id = Some receipt).
Proof.
  unfold getPoints, getBreakdown.
  destruct (isValidUUID uuid_Parse id); cbn [negb];
    [destruct (receipts id) as [rc |] |];
    cbn [StatusCode http_Error json_OK]; repeat split; auto;
    try discriminate; try (intros (H & _); discriminate H);
    try (intros (_ & H); discriminate H);
    try (intros (_ & rc' & H); discriminate H);
    try (now exists rc).
Qed.

(** X8: how [handleRequests] reads the path.  A GET on
    [/receipts/{id}/points] is answered by [getPoints] on [id] and a GET
    on [/receipts/{id}/breakdown] by [getBreakdown] on [id], for every
    string [id], one that holds slashes or ends with one of the two
    suffixes included; a request with another method is answered 405, and
    a GET on a path that ends with neither suffix 404. *)
Theorem X8_handleRequests_dispatch
  (uuid_Parse : string -> option error) (receipts : Store) (id body : string) :
  handleRequests uuid_Parse receipts (mkRequest "GET" (points_path id) body)
  = getPoints uuid_Parse receipts id
  /\ handleRequests uuid_Parse receipts (mkRequest "GET" (breakdown_path id) body)
     = getBreakdown uuid_Parse receipts id
  /\ (forall r, Method r <> "GET" ->
                handleRequests uuid_Parse receipts r
                = http_Error "Only GET method is allowed" 405)
  /\ (forall r, Method r = "GET" ->
                HasSuffix (TrimPrefix (Path r) "/receipts/") "/points" = false ->
                HasSuffix (TrimPrefix (Path r) "/receipts/") "/breakdown" = false ->
                handleRequests uuid_Parse receipts r
                = http_Error "Invalid endpoint" 404).
Proof.
  split; [apply handleRequests_points | split; [apply handleRequests_breakdown |]].
  split.
  - intros r Hm. unfold handleRequests. apply String.eqb_neq in Hm. now rewrite Hm.
  - intros r Hm H1 H2. unfold handleRequests. now rewrite Hm, H1, H2.
Qed.

(* ================================================================== *)
(** ** The date check *)

Lemma is_digit_hyphen : is_digit "-" = false.
Proof. reflexivity. Qed.

Ltac date_cases :=
  repeat (cbn -[digit_val is_digit Z.mul Z.add Z.ltb Z.leb Ascii.eqb daysIn];
          rewrite ?Ascii.eqb_refl;
          match goal with
          | |- context [Ascii.eqb ?x "-"] =>
              is_var x;
              destruct (Ascii.eqb_spec x "-"); [subst x; rewrite ?is_digit_hyphen |]
          | |- context [is_digit ?x] =>
              is_var x;
              let H := fresh "Hd" in
              destruct (is_digit x) eqn:H; [apply digit_val_bounds in H |]
          | |- context [?x <? ?y] => destruct (Z.ltb_spec x y)
          | |- context [?x <=? ?y] => destruct (Z.leb_spec x y)
          end).

Lemma date_ok_spec (s : string) : date_ok s = is_YYYY_MM_DD s.
Proof.
  unfold date_ok, Parse_date, getyear, getnum, skip, is_YYYY_MM_DD.
  destruct s as [| y1 [| y2 [| y3 [| y4 [| p [| m1 [| m2 [| q [| d1 [| d2 [| x s]]]]]]]]]]];
    date_cases; try reflexivity; try lia; try congruence.
Qed.

(* ================================================================== *)
(** ** The decimal pattern *)

Lemma decimal_tail_shape (s : string) :
  decimal_tail s = true
  <-> exists ds a b,
        s = ds +++ String "." (String a (String b ""))
        /\ string_forall is_digit ds = true
        /\ is_digit a = true /\ is_digit b = true.
Proof.
  induction s as [| c s IH]; cbn [decimal_tail].
  - split; [discriminate |]. intros (ds & a & b & E & _).
    destruct ds; discriminate E.
  - destruct (is_digit c) eqn:Hc.
    + rewrite IH. split.
      * intros (ds & a & b & -> & Hds & Ha & Hb).
        exists (String c ds), a, b. cbn [append string_forall].
        now rewrite Hc, Hds.
      * intros (ds & a & b & E & Hds & Ha & Hb).
        destruct ds as [| c' ds]; cbn [append] in E; injection E as -> E.
        -- discriminate Hc.
        -- cbn [string_forall] in Hds. apply andb_prop in Hds as [_ Hds].
           exists ds, a, b. auto.
    + split.
      * intros H. apply andb_prop in H as [Hdot H]. apply Ascii.eqb_eq in Hdot.
        destruct s as [| a [| b [| x s]]]; try discriminate H.
        apply andb_prop in H as [Ha Hb]. exists "", a, b. subst c. auto.
      * intros (ds & a & b & E & Hds & Ha & Hb).
        destruct ds as [| c' ds]; cbn [append] in E; injection E as -> E.
        -- subst s. now rewrite Ha, Hb.
        -- cbn [string_forall] in Hds. rewrite Hc in Hds. discriminate Hds.
Qed.

Lemma is_decimal_shape (s : string) :
  is_decimal s = true
  <-> exists ds a b,
        s = ds +++ String "." (String a (String b ""))
        /\ ds <> "" /\ string_forall is_digit ds = true
        /\ is_digit a = true /\ is_digit b = true.
Proof.
  destruct s as [| c s]; cbn [is_decimal].
  - split; [discriminate |]. intros (ds & a & b & E & _). destruct ds; discriminate E.
  - rewrite andb_true_iff, decimal_tail_shape. split.
    + intros (Hc & ds & a & b & -> & Hds & Ha & Hb).
      exists (String c ds), a, b. cbn [append string_forall]. rewrite Hc, Hds.
      repeat split; auto. discriminate.
    + intros (ds & a & b & E & Hne & Hds & Ha & Hb).
      destruct ds as [| c' ds]; [contradiction |].
      cbn [append] in E. injection E as -> E.
      cbn [string_forall] in Hds. apply andb_prop in Hds as [Hc Hds].
      split; [exact Hc |]. exists ds, a, b. auto.
Qed.

Lemma decimal_ok_spec (s : string) : decimal_ok s = is_decimal s.
Proof.
  apply eq_true_iff_eq. rewrite is_decimal_shape. split; [apply decimal_ok_shape |].
  intros (ds & a & b & -> & Hne & Hds & Ha & Hb).
  unfold decimal_ok, decimal_re, Twice. apply MatchString_Lang.
  apply Lang_Cat.
  - apply MatchString_Lang. rewrite MatchString_Plus_Class.
    change (string_forall perl_d ds) with (string_forall is_digit ds).
    rewrite Hds. destruct ds; [contradiction | reflexivity].
  - apply (Lang_Cat _ _ (String "." "") (String a (String b ""))).
    + constructor. apply Ascii.eqb_refl.
    + apply (Lang_Cat _ _ (String a "") (String b "")); now constructor.
Qed.

Lemma plus_class_spec (p : ascii -> bool) (s : string) :
  negb (String.eqb s "") && MatchString (Plus (Class p)) s = true
  <-> s <> "" /\ string_forall p s = true.
Proof.
  rewrite MatchString_Plus_Class.
  destruct (String.eqb_spec s "") as [-> | Hne]; cbn [negb andb].
  - split; [discriminate | intros (H & _); now contradiction H].
  - tauto.
Qed.

(** X9: what [validateReceipt] accepts, byte by byte.  It returns no
    error exactly when the retailer is not empty and made of bytes of
    [[\w\s\-&]], purchaseDate is a calendar day written [YYYY-MM-DD],
    purchaseTime is [HH:MM] or [H:MM] with an hour up to 23 and a minute
    up to 59, there is at least one item, every item has a description
    that is not empty and made of bytes of [[\w\s\-]] and a price of one
    digit or more, a point and two digits, and the total has the shape
    of a price. *)
Theorem X9_validateReceipt_accepts_iff (r : Receipt) :
  validateReceipt r = None
  <-> (Retailer r <> "" /\ string_forall retailer_class (Retailer r) = true)
      /\ is_YYYY_MM_DD (PurchaseDate r) = true
      /\ is_HH_MM (PurchaseTime r) || is_H_MM (PurchaseTime r) = true
      /\ Items r <> []
      /\ Forall (fun it => ShortDescription it <> ""
                           /\ string_forall description_class (ShortDescription it) = true
                           /\ is_decimal (Price it) = true) (Items r)
      /\ is_decimal (Total r) = true.
Proof.
  rewrite <- date_ok_spec, <- time_ok_spec, <- decimal_ok_spec.
  rewrite <- (plus_class_spec retailer_class).
  change (negb (String.eqb (Retailer r) "")
          && MatchString (Plus (Class retailer_class)) (Retailer r))
    with (retailer_ok (Retailer r)).
  assert (Hitems : forall items,
    Forall (fun it => ShortDescription it <> ""
                      /\ string_forall description_class (ShortDescription it) = true
                      /\ is_decimal (Price it) = true) items
    <-> Forall (fun it => description_ok (ShortDescription it) = true
                          /\ decimal_ok (Price it) = true) items).
  { intros items.
    split; apply Forall_impl; intros it; rewrite <- decimal_ok_spec;
      unfold description_ok, description_re;
      rewrite (plus_class_spec description_class); tauto. }
  rewrite Hitems. split; [apply validated_fields |].
  intros (Hr & Hd & Ht & Hne & Hall & Htot).
  rewrite validateReceipt_first_violation. unfold checks.
  rewrite Hr, Hd, Ht, Htot. cbn [negb app first_violation].
  destruct (Items r) as [| it items]; [contradiction |].
  cbn [first_violation]. clear Hne.
  induction Hall as [| it' items' (Hdesc & Hprice) _ IH]; [reflexivity |].
  cbn [flat_map app first_violation]. rewrite Hdesc, Hprice. exact IH.
Qed.

(** X10: the date check.  [validateReceipt] returns the reason on
    purchaseDate exactly when the retailer passes and purchaseDate is not
    ten bytes [YYYY-MM-DD] of digits and hyphens naming a day of the
    calendar: a month from 01 to 12 and a day from 01 to the length of
    that month, 29 for February in leap years only. *)
Theorem X10_validateReceipt_invalid_date_iff (r : Receipt) :
  (validateReceipt r = Some invalid_date
   <-> (Retailer r <> "" /\ string_forall retailer_class (Retailer r) = true)
       /\ is_YYYY_MM_DD (PurchaseDate r) = false)
  /\ is_YYYY_MM_DD "2024-02-29" = true
  /\ map is_YYYY_MM_DD ["2023-02-29"; "1900-02-29"; "2022-04-31"; "2022-00-10";
                        "2022-1-01"; "22-01-01"; "2022/01/01"; "2022-01-01 "]
     = [false; false; false; false; false; false; false; false].
Proof.
  split; [| split; reflexivity].
  rewrite <- date_ok_spec, <- (plus_class_spec retailer_class).
  change (negb (String.eqb (Retailer r) "")
          && MatchString (Plus (Class retailer_class)) (Retailer r))
    with (retailer_ok (Retailer r)).
  rewrite validateReceipt_first_violation.
  change (checks r) with (firstn 2 (checks r) ++ skipn 2 (checks r)) at 1.
  unfold checks at 1. cbn [app firstn first_violation].
  destruct (retailer_ok (Retailer r)); cbn [negb];
    [| split; [discriminate | intros (H & _); discriminate H]].
  destruct (date_ok (PurchaseDate r)); cbn [negb]; [| tauto].
  split; [| intros (_ & H); discriminate H].
  intros H. apply first_violation_In in H.
  unfold checks in H. cbn [app skipn map snd In] in H.
  destruct H as [H | H]; [discriminate H |].
  apply (later_reasons r) in H. cbn [In] in H. intuition discriminate.
Qed.

(** X11: the errors [calculatePoints] discards.  On a receipt that
    [validateReceipt] accepts, [time.Parse] fails neither on the date nor
    on the time, and [strconv.ParseFloat] reads the total and every price
    as the binary64 value nearest to the decimal written, with no error
    but a range error when that value is an infinity. *)
Theorem X11_validated_receipt_parses (r : Receipt) :
  validateReceipt r = None ->
  snd (Parse_date (PurchaseDate r)) = None
  /\ snd (Parse_clock (PurchaseTime r)) = None
  /\ ParseFloat (Total r)
     = (decimal_float (Total r),
        match decimal_float (Total r) with
        | S754_infinity _ => Some ErrRange
        | _ => None
        end)
  /\ Forall (fun it => ParseFloat (Price it)
                       = (decimal_float (Price it),
                          match decimal_float (Price it) with
                          | S754_infinity _ => Some ErrRange
                          | _ => None
                          end)) (Items r).
Proof.
  intros H. apply validated_fields in H as (_ & Hd & Ht & _ & Hitems & Htot).
  unfold date_ok in Hd. unfold time_ok in Ht.
  split; [now destruct (snd (Parse_date (PurchaseDate r))) |].
  split; [now destruct (snd (Parse_clock (PurchaseTime r))) |].
  split; [now apply ParseFloat_decimal |].
  revert Hitems. apply Forall_impl. intros it (_ & Hp). now apply ParseFloat_decimal.
Qed.

Lemma X11_witness :
  validateReceipt reference = None
  /\ ParseFloat (Total reference) = (decimal_float "35.35", None).
Proof.
  assert (Hv : validateReceipt reference = None) by (vm_compute; reflexivity).
  split; [exact Hv |].
  exact (proj1 (proj2 (proj2 (X11_validated_receipt_parses reference Hv)))).
Defined.

(* ================================================================== *)
(** ** Rule 1 *)

Lemma countAlphanumeric_from_wrap (s : string) (count : Z) :
  countAlphanumeric_from (GoInt.wrap count) s
  = GoInt.wrap (count + Z.of_nat (count_bytes alphanumeric s)).
Proof.
  revert count. induction s as [| c s IH]; intros count;
    cbn [countAlphanumeric_from count_bytes].
  - f_equal. change (Z.of_nat 0) with 0. lia.
  - fold (alphanumeric c). destruct (alphanumeric c).
    + unfold GoInt.add. rewrite wrap_add_l, IH. f_equal.
      rewrite Nat2Z.inj_add. change (Z.of_nat 1) with 1. lia.
    + rewrite IH. reflexivity.
Qed.

Lemma count_bytes_app (p : ascii -> bool) (s1 s2 : string) :
  count_bytes p (s1 +++ s2) = (count_bytes p s1 + count_bytes p s2)%nat.
Proof.
  induction s1 as [| c s1 IH]; cbn [append count_bytes]; [reflexivity |].
  rewrite IH. lia.
Qed.

Lemma count_bytes_le (p : ascii -> bool) (s : string) :
  (count_bytes p s <= String.length s)%nat.
Proof.
  induction s as [| c s IH]; cbn [count_bytes String.length]; [lia |].
  destruct (p c); lia.
Qed.

Lemma count_bytes_all (p : ascii -> bool) (s : string) :
  count_bytes p s = String.length s <-> string_forall p s = true.
Proof.
  induction s as [| c s IH]; cbn [count_bytes String.length string_forall].
  - tauto.
  - pose proof (count_bytes_le p s). destruct (p c); cbn [andb].
    + rewrite <- IH. lia.
    + split; [lia | discriminate].
Qed.

(** X12: what rule 1 counts.  [countAlphanumeric] returns the number of
    bytes of the string that are ASCII letters or digits, reduced to an
    [int]; the count of a concatenation is the sum of the counts. *)
Theorem X12_countAlphanumeric_counts (s1 s2 : string) :
  countAlphanumeric s1 = GoInt.wrap (Z.of_nat (count_bytes alphanumeric s1))
  /\ countAlphanumeric (s1 +++ s2)
     = GoInt.add (countAlphanumeric s1) (countAlphanumeric s2).
Proof.
  assert (H : forall s, countAlphanumeric s
                        = GoInt.wrap (Z.of_nat (count_bytes alphanumeric s))).
  { intros s. unfold countAlphanumeric.
    change 0 with (GoInt.wrap 0) at 1. now rewrite countAlphanumeric_from_wrap. }
  split; [apply H |].
  rewrite !H, count_bytes_app. unfold GoInt.add.
  rewrite wrap_add_l, wrap_add_r. f_equal. lia.
Qed.

(** X13: rule 1 within the range of [int].  For a string shorter than
    [2^63] bytes the count is exact, lies between 0 and the length, and
    equals the length exactly when every byte is a letter or a digit. *)
Theorem X13_countAlphanumeric_bounds (s : string) :
  Z.of_nat (String.length s) <= GoInt.max_int ->
  countAlphanumeric s = Z.of_nat (count_bytes alphanumeric s)
  /\ 0 <= countAlphanumeric s <= Z.of_nat (String.length s)
  /\ (countAlphanumeric s = Z.of_nat (String.length s)
      <-> string_forall alphanumeric s = true).
Proof.
  intros Hlen. pose proof (count_bytes_le alphanumeric s) as Hle.
  assert (H : countAlphanumeric s = Z.of_nat (count_bytes alphanumeric s)).
  { unfold countAlphanumeric. change 0 with (GoInt.wrap 0) at 1.
    rewrite countAlphanumeric_from_wrap. apply wrap_small.
    unfold GoInt.in_range, GoInt.min_int, GoInt.max_int in *. lia. }
  rewrite H. split; [reflexivity | split; [lia |]].
  rewrite <- count_bytes_all. lia.
Qed.

Lemma X13_witness :
  Z.of_nat (String.length "M&M Corner Market") <= GoInt.max_int
  /\ countAlphanumeric "M&M Corner Market" = 14.
Proof.
  assert (Hlen : Z.of_nat (String.length "M&M Corner Market") <= GoInt.max_int)
    by (vm_compute; discriminate).
  split; [exact Hlen |].
  exact (proj1 (X13_countAlphanumeric_bounds "M&M Corner Market" Hlen)).
Defined.

(* ================================================================== *)
(** ** Rules 2 and 3 together *)

Lemma digits2_pos_le (m : positive) (k : Z) :
  0 <= k -> Zpos m < 2 ^ k -> Zpos (digits2_pos m) <= k.
Proof.
  revert k. induction m as [m IH | m IH |]; intros k Hk Hm; cbn [digits2_pos].
  - assert (k <> 0) by (intros ->; cbn in Hm; lia).
    replace k with (Z.succ (k - 1)) in Hm by lia.
    rewrite Z.pow_succ_r in Hm by lia.
    specialize (IH (k - 1) ltac:(lia) ltac:(lia)). lia.
  - assert (k <> 0) by (intros ->; cbn in Hm; lia).
    replace k with (Z.succ (k - 1)) in Hm by lia.
    rewrite Z.pow_succ_r in Hm by lia.
    specialize (IH (k - 1) ltac:(lia) ltac:(lia)). lia.
  - assert (k <> 0) by (intros ->; cbn in Hm; lia). lia.
Qed.

Lemma iter_xO_spec (m d : positive) :
  Zpos (Pos.iter xO m d) = Zpos m * 2 ^ Zpos d
  /\ Zpos (digits2_pos (Pos.iter xO m d)) = Zpos (digits2_pos m) + Zpos d.
Proof.
  induction d as [| d IH] using Pos.peano_ind.
  - cbn [Pos.iter digits2_pos]. split; [| lia]. change (2 ^ 1) with 2. lia.
  - rewrite Pos.iter_succ. cbn [digits2_pos]. destruct IH as [IH1 IH2].
    rewrite Pos2Z.inj_succ, Z.pow_succ_r by lia.
    split; [rewrite Pos2Z.inj_xO, IH1; ring | lia].
Qed.

Lemma iter_pos_invariant {A : Type} (P : A -> Prop) (f : A -> A) :
  (forall x, P x -> P (f x)) -> forall n x, P x -> P (iter_pos f n x).
Proof.
  intros Hf. induction n as [n IH | n IH |]; intros x Hx; cbn [iter_pos]; auto.
Qed.

Lemma shr_1_bounds (M : Z) (mrs : shr_record) :
  0 <= shr_m mrs <= M -> 0 <= shr_m (shr_1 mrs) <= M.
Proof.
  destruct mrs as [m r s]. cbn [shr_m]. intros H.
  destruct m as [| [p | p |] | p]; cbn [shr_1 shr_m]; lia.
Qed.

Lemma shr_spec (mrs : shr_record) (e n : Z) :
  0 <= shr_m mrs ->
  snd (shr mrs e n) = e + Z.max n 0
  /\ 0 <= shr_m (fst (shr mrs e n)) <= shr_m mrs
  /\ (n <= 0 -> fst (shr mrs e n) = mrs).
Proof.
  intros Hm. destruct n as [| p | p]; cbn [shr fst snd].
  - repeat split; lia.
  - split; [lia |]. split; [| lia].
    apply (iter_pos_invariant (fun x => 0 <= shr_m x <= shr_m mrs)).
    + intros x. apply shr_1_bounds.
    + lia.
  - repeat split; lia.
Qed.

Lemma Zdigits2_le (m : Z) (k : Z) : 0 <= k -> 0 <= m < 2 ^ k -> Zdigits2 m <= k.
Proof.
  intros Hk Hm. destruct m as [| p | p]; cbn [Zdigits2]; [lia | | lia].
  apply digits2_pos_le; lia.
Qed.

Lemma round_nearest_even_bounds (m : Z) (l : location) :
  0 <= m -> m <= round_nearest_even m l <= m + 1.
Proof.
  intros Hm. destruct l as [| []]; cbn [round_nearest_even]; try lia.
  destruct (Z.even m); lia.
Qed.

Lemma binary_round_integral (sx : bool) (mx : positive) :
  Zpos mx <= 2 ^ 63 -> integral (binary_round prec emax sx mx 0).
Proof.
  intros Hmx.
  assert (Hd : 1 <= Zpos (digits2_pos mx) <= 64).
  { split; [lia |]. apply digits2_pos_le; [lia |].
    change (2 ^ 64) with (2 * 2 ^ 63). lia. }
  unfold binary_round.
  assert (Hfexp : fexp prec emax (Zpos (digits2_pos mx) + 0)
                  = Zpos (digits2_pos mx) - 53).
  { unfold fexp, emin, prec, emax. lia. }
  rewrite Hfexp. unfold shl_align.
  destruct (Zpos (digits2_pos mx) - 53 - 0) as [| p | p] eqn:Et.
  - (* 53 digits: nothing moves *)
    unfold binary_round_aux, shr_fexp. cbn [Zdigits2 shr_record_of_loc].
    rewrite Hfexp.
    replace (Zpos (digits2_pos mx) - 53 - 0) with 0 by lia.
    cbn [shr loc_of_shr_record shr_m round_nearest_even Zdigits2].
    rewrite Hfexp.
    replace (Zpos (digits2_pos mx) - 53 - 0) with 0 by lia.
    cbn [shr shr_m]. cbn. now left.
  - (* more than 53 digits: the exponent grows *)
    unfold binary_round_aux, shr_fexp. cbn [shr_record_of_loc].
    set (rec0 := {| shr_m := Zpos mx; shr_r := false; shr_s := false |}).
    set (n1 := fexp prec emax (Zdigits2 (Zpos mx) + 0) - 0).
    pose proof (shr_spec rec0 0 n1 ltac:(cbn; lia)) as (He1 & Hm1 & _).
    destruct (shr rec0 0 n1) as [mrs1 e1]. cbn [fst snd] in He1, Hm1.
    subst rec0. cbn [shr_m] in Hm1.
    assert (Hn1 : n1 = Zpos (digits2_pos mx) - 53).
    { unfold n1. cbn [Zdigits2]. rewrite Hfexp. lia. }
    set (m1 := round_nearest_even (shr_m mrs1) (loc_of_shr_record mrs1)).
    pose proof (round_nearest_even_bounds (shr_m mrs1) (loc_of_shr_record mrs1)
                  ltac:(lia)) as Hr. fold m1 in Hr.
    set (rec1 := {| shr_m := m1; shr_r := false; shr_s := false |}).
    set (n2 := fexp prec emax (Zdigits2 m1 + e1) - e1).
    pose proof (shr_spec rec1 e1 n2 ltac:(cbn; lia)) as (He2 & Hm2 & _).
    destruct (shr rec1 e1 n2) as [mrs2 e2]. cbn [fst snd] in He2, Hm2.
    assert (Hdig : Zdigits2 m1 <= 64).
    { apply Zdigits2_le; [lia |]. change (2 ^ 64) with (2 * 2 ^ 63). lia. }
    assert (He2' : 0 <= e2 <= 971).
    { unfold n2, fexp, emin, prec, emax in He2. lia. }
    destruct (shr_m mrs2) as [| m | m] eqn:Em; [exact I | | lia].
    unfold emax, prec. replace (e2 <=? 1024 - 53) with true
      by (symmetry; apply Z.leb_le; lia).
    cbn [integral]. left. lia.
  - (* fewer than 53 digits: the mantissa is shifted left, exactly *)
    destruct (iter_xO_spec mx p) as [Hval Hdig].
    unfold binary_round_aux, shr_fexp. cbn [Zdigits2 shr_record_of_loc].
    rewrite Hdig.
    assert (Hn : fexp prec emax (Zpos (digits2_pos mx) + Zpos p
                                 + (Zpos (digits2_pos mx) - 53))
                 - (Zpos (digits2_pos mx) - 53) = 0).
    { unfold fexp, emin, prec, emax. lia. }
    rewrite Hn.
    cbn [shr loc_of_shr_record shr_m round_nearest_even Zdigits2].
    rewrite Hdig, Hn. cbn [shr shr_m].
    unfold emax, prec.
    replace (Zpos (digits2_pos mx) - 53 <=? 1024 - 53) with true
      by (symmetry; apply Z.leb_le; lia).
    cbn [integral]. right. split; [lia |].
    exists (Zpos mx). rewrite Hval. f_equal. f_equal. lia.
Qed.

Lemma of_int_integral (n : Z) : GoInt.in_range n = true -> integral (of_int n).
Proof.
  unfold GoInt.in_range, GoInt.min_int, GoInt.max_int. intros H.
  apply andb_prop in H as [H1 H2]. apply Z.leb_le in H1, H2.
  unfold of_int, binary_normalize. destruct n as [| p | p]; [exact I | |];
    apply binary_round_integral; lia.
Qed.

Lemma to_int_in_range (unrepresentable : float64 -> Z) (x : float64) :
  GoInt.in_range (to_int unrepresentable x) = true.
Proof.
  assert (Hw : forall z, GoInt.in_range (GoInt.wrap z) = true).
  { intros z. pose proof (wrap_range z). unfold GoInt.in_range.
    apply andb_true_intro. split; apply Z.leb_le; lia. }
  unfold to_int. destruct (trunc x) as [n |]; [| apply Hw].
  destruct (GoInt.in_range n) eqn:E; [exact E | apply Hw].
Qed.

Lemma SFeqb_finite (s s' : bool) (m m' : positive) (e e' : Z) :
  SFeqb (S754_finite s m e) (S754_finite s' m' e') = true ->
  s = s' /\ m = m' /\ e = e'.
Proof.
  unfold SFeqb, SFcompare.
  destruct s, s'; try discriminate;
    destruct (Z.compare_spec e e') as [-> | |]; try discriminate;
    destruct (Pos.compare_cont Eq m m') eqn:Ec; try discriminate;
    intros _; apply Pos.compare_eq in Ec; auto.
Qed.

Lemma const_0_25_value : const_0_25 = S754_finite false 4503599627370496 (-54).
Proof. vm_compute; reflexivity. Qed.

Lemma Mod_integral (x : float64) :
  integral x -> Float64.eqb (Mod x const_0_25) zero = true.
Proof.
  rewrite const_0_25_value.
  destruct x as [s | s | | s m e]; cbn [integral]; try contradiction.
  - intros _. reflexivity.
  - intros H. unfold Mod.
    set (e0 := Z.min e (-54)).
    assert (Hr : Z.shiftl (Zpos m) (e - e0)
                 mod Z.shiftl 4503599627370496 (-54 - e0) = 0).
    { rewrite !Z.shiftl_mul_pow2 by (unfold e0; lia).
      change 4503599627370496 with (2 ^ 52).
      destruct (Z.le_gt_cases (-54) e) as [Hlow | Hlow].
      - replace e0 with (-54) by (unfold e0; lia).
        replace (-54 - -54) with 0 by lia. rewrite Z.pow_0_r, Z.mul_1_r.
        destruct H as [Hpos | (Hneg & k & Hk)].
        + replace (e - -54) with (e + 2 + 52) by lia.
          rewrite Z.pow_add_r by lia. rewrite Z.mul_assoc. apply Z.mod_mul. lia.
        + rewrite Hk. rewrite <- Z.mul_assoc, <- Z.pow_add_r by lia.
          replace (- e + (e - -54)) with (2 + 52) by lia.
          rewrite Z.pow_add_r by lia. rewrite !Z.mul_assoc. apply Z.mod_mul. lia.
      - replace e0 with e by (unfold e0; lia).
        replace (e - e) with 0 by lia. rewrite Z.pow_0_r, Z.mul_1_r.
        destruct H as [Hpos | (Hneg & k & Hk)]; [lia |].
        rewrite Hk. replace (- e) with (2 + (52 + (-54 - e))) by lia.
        rewrite (Z.pow_add_r 2 2) by lia. rewrite Z.pow_add_r by lia.
        rewrite !Z.mul_assoc. rewrite <- (Z.mul_assoc (k * 2 ^ 2)).
        apply Z.mod_mul.
        pose proof (Z.pow_pos_nonneg 2 52 ltac:(lia) ltac:(lia)).
        pose proof (Z.pow_pos_nonneg 2 (-54 - e) ltac:(lia) ltac:(lia)). lia. }
    rewrite Hr. destruct s; reflexivity.
Qed.

Lemma round_dollar_quarter (unrepresentable : float64 -> Z) (x : float64) :
  round_dollar unrepresentable x = true -> quarter_multiple x = true.
Proof.
  unfold round_dollar, quarter_multiple. intros H. apply Mod_integral.
  pose proof (of_int_integral _ (to_int_in_range unrepresentable x)) as Hint.
  destruct (of_int (to_int unrepresentable x)) as [s' | s' | | s' m' e'];
    cbn [integral] in Hint; try contradiction;
    destruct x as [s | s | | s m e]; try discriminate H; try exact I.
  - unfold Float64.eqb, SFeqb, SFcompare in H. destruct s; discriminate H.
  - unfold Float64.eqb, SFeqb, SFcompare in H. destruct s; discriminate H.
  - unfold Float64.eqb, SFeqb, SFcompare in H. destruct s; discriminate H.
  - apply SFeqb_finite in H as (-> & -> & ->). exact Hint.
Qed.

(** X14: rule 2 never adds its points alone.  For every receipt and
    every choice of the platform, a total that passes the test of rule 2
    passes the test of rule 3: to the points of the other rules the two
    rules on the total add 0, 25 or 75 points, never 50, and the line of
    rule 2 never comes without the line of rule 3. *)
Theorem X14_rule_2_never_alone (unrepresentable : float64 -> Z) (r : Receipt) :
  fst (calculatePoints unrepresentable r)
  = GoInt.wrap (other_points unrepresentable r
                + total_points unrepresentable (total_value r))
  /\ ((total_points unrepresentable (total_value r) = 0
       /\ total_lines unrepresentable (total_value r) = [])
      \/ (total_points unrepresentable (total_value r) = 25
          /\ total_lines unrepresentable (total_value r) = [rule3_line])
      \/ (total_points unrepresentable (total_value r) = 75
          /\ total_lines unrepresentable (total_value r) = [rule2_line; rule3_line])).
Proof.
  split.
  - rewrite calculatePoints_closed. cbn [fst]. unfold raw_points, other_points.
    f_equal. lia.
  - unfold total_points, total_lines.
    pose proof (round_dollar_quarter unrepresentable (total_value r)) as H.
    destruct (round_dollar unrepresentable (total_value r)).
    + rewrite (H eq_refl). right. right. split; reflexivity.
    + destruct (quarter_multiple (total_value r)); [right; left | left];
        split; reflexivity.
Qed.

(* ================================================================== *)
(** ** Rules 6 and 7 on the text of the date and the time *)

Lemma eqb_digit_val (d c : ascii) : Ascii.eqb d c = (digit_val c =? digit_val d).
Proof.
  destruct (Ascii.eqb_spec d c) as [-> | Hne]; [now rewrite Z.eqb_refl |].
  symmetry. apply Z.eqb_neq. unfold digit_val, code. intros H. apply Hne.
  rewrite <- (ascii_N_embedding d), <- (ascii_N_embedding c). f_equal. lia.
Qed.

Lemma odd_units (a b : Z) :
  0 <= a -> 0 <= b -> negb (Z.rem (a * 10 + b) 2 =? 0) = Z.odd b.
Proof.
  intros Ha Hb. rewrite Z.rem_mod_nonneg by lia.
  replace (a * 10 + b) with (b + (a * 5) * 2) by lia.
  rewrite Z.mod_add by lia. rewrite Zmod_odd.
  destruct (Z.odd b); reflexivity.
Qed.

(** X15: rule 6 on the text of the date.  The test of rule 6 passes
    exactly when purchaseDate is no calendar day written [YYYY-MM-DD],
    the date then being read as day 1, or its last digit is odd. *)
Theorem X15_odd_day_on_the_text (r : Receipt) :
  odd_day r
  = negb (is_YYYY_MM_DD (PurchaseDate r)) || Z.odd (digit_at 9 (PurchaseDate r)).
Proof.
  unfold odd_day. generalize (PurchaseDate r) as s. intros s.
  unfold Parse_date, getyear, getnum, skip, is_YYYY_MM_DD, digit_at.
  destruct s as [| y1 [| y2 [| y3 [| y4 [| p [| m1 [| m2 [| q [| d1 [| d2 [| x s]]]]]]]]]]];
    try reflexivity.
  all: repeat (cbn -[digit_val is_digit Z.mul Z.add Z.ltb Z.leb Ascii.eqb daysIn Z.rem Z.odd];
          rewrite ?Ascii.eqb_refl;
          match goal with
          | |- context [Ascii.eqb ?x "-"] =>
              is_var x;
              destruct (Ascii.eqb_spec x "-"); [subst x; rewrite ?is_digit_hyphen |]
          | |- context [is_digit ?x] =>
              is_var x;
              let H := fresh "Hd" in
              destruct (is_digit x) eqn:H; [apply digit_val_bounds in H |]
          | |- context [?x <? ?y] => destruct (Z.ltb_spec x y)
          | |- context [?x <=? ?y] => destruct (Z.leb_spec x y)
          end); try reflexivity; try lia; try congruence.
  all: try (apply odd_units; lia).
Qed.

(** X16: rule 7 on the text of the time.  The test of rule 7 passes
    exactly when purchaseTime passes the time check and starts with [14:]
    or [15:]: every minute from 14:00 to 15:59 counts, 16:00 does not, and
    a time that fails the check, read as hour 0, never counts. *)
Theorem X16_afternoon_on_the_text (r : Receipt) :
  afternoon r
  = time_ok (PurchaseTime r)
    && (has_prefix "14:" (PurchaseTime r) || has_prefix "15:" (PurchaseTime r)).
Proof.
  unfold afternoon. generalize (PurchaseTime r) as s. intros s.
  unfold time_ok, Parse_clock, getnum, skip.
  destruct s as [| a [| b [| c [| d [| e [| f s]]]]]]; try reflexivity.
  all: time_cases; try reflexivity; try lia; try congruence.
  all: cbn [fst snd Hour]; rewrite ?eqb_digit_val.
  all: change (digit_val "1") with 1; change (digit_val "4") with 4;
    change (digit_val "5") with 5; change (digit_val ":") with 10.
  all: repeat match goal with
         | |- context [?x =? ?y] => destruct (Z.eqb_spec x y)
         end; try reflexivity; try lia.
Qed.
